(** * Vionix backend (main.py): the chat and message-history endpoints

    A shallow embedding of the two handlers [chat] (POST /api/chat) and
    [get_messages] (GET /api/messages) of main.py, with the Python
    string operations they use, and the properties of the specification
    stated over them.

    Python strings are sequences of Unicode code points: a [str] is a list
    of code points, so that [content[:200]] counts characters as Python
    does and the non-ASCII literals of the source (U+2011, U+2019, U+2022,
    U+2026) are single characters. *)

From Stdlib Require Import NArith ZArith List Ascii String Bool Lia.
From stdpp Require Import base option list gmap.
Import ListNotations.

Local Open Scope N_scope.

(** ** Python strings *)

Abbreviation char := N.
Abbreviation str := (list N).

(** An ASCII literal of the source as a [str]. *)
Definition lit (s : string) : str :=
  List.map N_of_ascii (list_ascii_of_string s).
Arguments lit s%_string.

(** Truthiness of a string: [if s] holds for a non-empty [s]. *)
Definition truthy (s : str) : bool :=
  match s with [] => false | _ :: _ => true end.

(** [c.isspace()] for one character: the white space of CPython's
    [_PyUnicode_IsWhitespace]. *)
Definition isspace (c : char) : bool :=
  ((0x9 <=? c) && (c <=? 0xD)) || ((0x1C <=? c) && (c <=? 0x20))
  || (c =? 0x85) || (c =? 0xA0) || (c =? 0x1680)
  || ((0x2000 <=? c) && (c <=? 0x200A))
  || (c =? 0x2028) || (c =? 0x2029) || (c =? 0x202F) || (c =? 0x205F)
  || (c =? 0x3000).

Fixpoint lstrip_by (p : char -> bool) (s : str) : str :=
  match s with
  | c :: s' => if p c then lstrip_by p s' else s
  | [] => []
  end.

Definition rstrip_by (p : char -> bool) (s : str) : str :=
  rev (lstrip_by p (rev s)).

Definition strip_by (p : char -> bool) (s : str) : str :=
  rstrip_by p (lstrip_by p s).

(** [s.strip()] *)
Definition strip (s : str) : str := strip_by isspace s.

(** [s.strip(chars)] *)
Definition strip_chars (chars : str) (s : str) : str :=
  strip_by (fun c => existsb (N.eqb c) chars) s.

(** [s.startswith(p)] *)
Fixpoint startswith (s p : str) {struct p} : bool :=
  match p, s with
  | [], _ => true
  | a :: p', b :: s' => (a =? b) && startswith s' p'
  | _ :: _, [] => false
  end.

(** [k in s] for strings: [k] occurs in [s] as a substring. *)
Fixpoint str_in (k s : str) : bool :=
  startswith s k ||
  match s with
  | [] => false
  | _ :: s' => str_in k s'
  end.

(** [s.split(sep)] for a separator of one character. *)
Fixpoint split (sep : char) (s : str) : list str :=
  match s with
  | [] => [[]]
  | c :: r =>
      if c =? sep then [] :: split sep r
      else match split sep r with
           | h :: t => (c :: h) :: t
           | [] => [[c]]
           end
  end.

(** [s.split(sep, 1)] for a separator of one character: at most one cut,
    at the first occurrence of [sep]. *)
Fixpoint split1 (sep : char) (s : str) : list str :=
  match s with
  | [] => [[]]
  | c :: r =>
      if c =? sep then [[]; r]
      else match split1 sep r with
           | h :: t => (c :: h) :: t
           | [] => [[c]]
           end
  end.

(** [sep.join(l)] *)
Fixpoint join (sep : str) (l : list str) : str :=
  match l with
  | [] => []
  | [x] => x
  | x :: l' => x ++ sep ++ join sep l'
  end.

(** ASCII part of [str.lower()]. *)
Definition ascii_tolower (c : char) : char :=
  if (0x41 <=? c) && (c <=? 0x5A) then c + 32 else c.

(** A lower-casing table that leaves every non-ASCII character as it is;
    on a message of ASCII characters [lower] never consults its table, so
    any table gives the same result there. *)
Definition uncased : str -> nat -> char -> str := fun _ _ c => [c].

(** ** Exceptions and results *)

(** The exceptions of the two routes: the handlers' own [HTTPException],
    FastAPI's refusal of a request that fails validation (answered with
    status 422), pydantic's refusal to build a model, Python's index
    error, and a failure of the store accessor. *)
Inductive exn :=
| HTTPException (status_code : Z) (detail : str)
| RequestValidationError
| ValidationError
| IndexError
| StoreError.

Inductive result (A : Type) :=
| Ok (a : A)
| Raise (e : exn).
Arguments Ok {A} a.
Arguments Raise {A} e.

Definition result_bind {A B} (r : result A) (k : A -> result B) : result B :=
  match r with
  | Ok a => k a
  | Raise e => Raise e
  end.

(** [l[i]]: an index past the end raises IndexError. *)
Definition getitem {A} (l : list A) (i : nat) : result A :=
  match l !! i with
  | Some x => Ok x
  | None => Raise IndexError
  end.

(** ** The reply rules (lines 60-80 of [chat]) *)

Definition GREETING : str :=
  lit "Hello! I'm Vionix, your all" ++ [0x2011] ++ lit "in" ++ [0x2011]
  ++ lit "one AI assistant. How can I help today?".

Definition HELP : str :=
  lit "I can organize tasks, summarize text, draft emails, brainstorm ideas, "
  ++ lit "and answer quick questions. Tell me what you need.".

Definition FALLBACK : str :=
  lit "Got it. I" ++ [0x2019] ++ lit "m processing your request. In this demo, I"
  ++ [0x2019] ++ lit "m running in local smart mode "
  ++ lit "without external LLMs, so responses are templated. Tell me if you want a summary, todo, or general help.".

Definition SUMMARY_PREFIX : str :=
  lit "Here" ++ [0x2019] ++ lit "s a concise summary: ".

Definition ELLIPSIS : char := 0x2026.
Definition BULLET : char := 0x2022.
Definition COLON : char := 0x3A.
Definition NEWLINE : char := 0xA.

Definition TODO_PREFIX : str := lit "Added to your list:" ++ [NEWLINE].

(** ** The data model *)

(** A value of a stored record, as the document store hands it back. *)
Inductive value :=
| VNone
| VBool (b : bool)
| VInt (n : Z)
| VStr (s : str).

#[global] Instance value_eq_dec : EqDecision value.
Proof. solve_decision. Defined.

(** A raw stored record: a Python dict from field names to values. *)
Abbreviation doc := (gmap (list N) value).

(** [d.get(key, default)] *)
Definition dict_get (d : doc) (key : str) (dflt : value) : value :=
  default dflt (d !! key).

Inductive Role := user | assistant.

Definition str_of_role (r : Role) : str :=
  match r with
  | user => lit "user"
  | assistant => lit "assistant"
  end.

Definition role_of_str (s : str) : option Role :=
  if decide (s = lit "user") then Some user
  else if decide (s = lit "assistant") then Some assistant
  else None.

Record Message := {
  msg_session_id : str;
  msg_role : Role;
  msg_content : str
}.

(** Modelled from the spec: the schema module (schemas.py, class Message),
    which main.py imports, is not at hand. The spec's data model gives a
    Message a
    session_id that is a string, a role that is one of user and
    assistant, and a content that is free text; [Message(session_id=..,
    role=.., content=..)] on anything else raises the model's validation
    error. *)
Definition Message_validate (session_id role content : value) : result Message :=
  match session_id, role, content with
  | VStr sid, VStr r, VStr c =>
      match role_of_str r with
      | Some r' => Ok {| msg_session_id := sid; msg_role := r'; msg_content := c |}
      | None => Raise ValidationError
      end
  | _, _, _ => Raise ValidationError
  end.

Record ChatRequest := {
  req_session_id : option str;
  req_message : str
}.

Record ChatResponse := {
  resp_session_id : str;
  resp_reply : str
}.

Record MessagesResponse := {
  list_session_id : str;
  list_messages : list Message
}.

(** ** The world a request runs in *)

(** The store: the records of every collection, oldest first. *)
Abbreviation Store := (list (list N * gmap (list N) value)).

(** [db] is the module's store handle ([None] when the store is not
    available); [uuid4] lists the identifiers [str(uuid.uuid4())] returns,
    in call order, and [uuid_calls] counts the calls made so far. *)
Record World := {
  db : option Store;
  uuid4 : nat -> str;
  uuid_calls : nat
}.

Definition M (A : Type) : Type := World -> result A * World.

Definition ret {A} (a : A) : M A := fun w => (Ok a, w).

Definition raise {A} (e : exn) : M A := fun w => (Raise e, w).

Definition lift {A} (r : result A) : M A := fun w => (r, w).

Definition bind {A B} (m : M A) (k : A -> M B) : M B :=
  fun w =>
    match m w with
    | (Ok a, w') => k a w'
    | (Raise e, w') => (Raise e, w')
    end.

Notation "'let*' x ':=' m 'in' k" := (bind m (fun x => k))
  (at level 10, x name, m at level 100, k at level 200).

Definition get_db : M (option Store) := fun w => (Ok (db w), w).

(** [str(uuid.uuid4())] *)
Definition uuid4_str : M str :=
  fun w =>
    (Ok (uuid4 w (uuid_calls w)),
     {| db := db w; uuid4 := uuid4 w; uuid_calls := S (uuid_calls w) |}).

(** [a or b] on an optional string: [None] and the empty string are falsy,
    and [b] runs only then. *)
Definition or_else (a : option str) (b : M str) : M str :=
  match a with
  | Some s => if truthy s then ret s else b
  | None => b
  end.

(** The record a Message is stored as. *)
Definition model_dump (m : Message) : doc :=
  {[ lit "session_id" := VStr (msg_session_id m);
     lit "role" := VStr (str_of_role (msg_role m));
     lit "content" := VStr (msg_content m) ]}.

(** Modelled from the spec: the store accessor (database.py), which
    main.py imports, is not at hand. Its first operation inserts a message
    record: the record is added to the collection, after the ones already
    there. *)
Definition create_document (collection : str) (m : Message) : M unit :=
  fun w =>
    match db w with
    | Some st =>
        (Ok tt,
         {| db := Some (st ++ [(collection, model_dump m)]);
            uuid4 := uuid4 w; uuid_calls := uuid_calls w |})
    | None => (Raise StoreError, w)
    end.

(** A record matches a filter when it has every field of the filter with
    the same value. *)
Definition matches (filter d : doc) : bool :=
  forallb (fun kv => bool_decide (d !! kv.1 = Some kv.2)) (map_to_list filter).

(** The records of a collection that match a filter, oldest first, cut
    at [limit]. The order of a query's result is the store's own; the
    model lists the records oldest first, and the properties of the
    history are stated for every order. *)
Definition find_documents (st : Store) (collection : str) (filter : doc)
    (limit : Z) : list doc :=
  take (Z.to_nat limit)
    (List.map snd
       (List.filter (fun r => bool_decide (r.1 = collection) && matches filter r.2) st)).

(** Modelled from the spec: the store accessor's second operation queries
    the records of a collection by their fields with a result-count limit
    (positive here), in the order the store keeps them. *)
Definition get_documents (collection : str) (filter : doc) (limit : Z)
    : M (list doc) :=
  fun w =>
    match db w with
    | Some st => (Ok (find_documents st collection filter limit), w)
    | None => (Raise StoreError, w)
    end.

Section Vionix.

(** Python's [str.lower()] maps each character through the Unicode
    database ([_PyUnicode_ToLowerFull]; a capital sigma looks at its
    context, and one character may become several). The ASCII range is
    written out above; the rest of the table is a parameter: given the
    whole string, an index and the non-ASCII character there, it gives
    the characters it lowers to. *)
Variable unicode_lower : str -> nat -> char -> str.

Definition lower_ucs4 (s : str) (i : nat) (c : char) : str :=
  if c <? 0x80 then [ascii_tolower c] else unicode_lower s i c.

Fixpoint lower_from (s : str) (i : nat) (rest : str) : str :=
  match rest with
  | [] => []
  | c :: r => lower_ucs4 s i c ++ lower_from s (S i) r
  end.

(** [s.lower()] *)
Definition lower (s : str) : str := lower_from s 0 s.

(** The reply computed from [req.message]; [text] is the message stripped
    and lower-cased, the summary and the list are cut from the message as
    it was sent. *)
Definition reply_of (message : str) : result str :=
  let text := lower (strip message) in
  if existsb (fun k => str_in k text) [lit "hello"; lit "hi"; lit "hey"] then
    Ok GREETING
  else if str_in (lit "help") text || str_in (lit "what can you do") text then
    Ok HELP
  else if startswith text (lit "summarize:") || startswith text (lit "summarise:") then
    result_bind
      (if str_in [COLON] message
       then result_bind (getitem (split1 COLON message) 1) (fun x => Ok (strip x))
       else Ok message)
      (fun content =>
         let reply :=
           firstn 200 content
           ++ (if (200 <? length content)%nat then [ELLIPSIS] else []) in
         Ok (SUMMARY_PREFIX ++ reply))
  else if startswith text (lit "todo:") || startswith text (lit "task:") then
    let items :=
      List.map (strip_chars [0x20; 0x2D; BULLET])
        (List.filter (fun i => truthy (strip i)) (split NEWLINE message)) in
    let bullets := join [NEWLINE] (List.map (fun i => [BULLET; 0x20] ++ i) items) in
    Ok (TODO_PREFIX ++ bullets)
  else
    Ok FALLBACK.

(** ** POST /api/chat *)

Definition chat (req : ChatRequest) : M ChatResponse :=
  let* d := get_db in
  match d with
  | None => raise (HTTPException 500 (lit "Database not available"))
  | Some _ =>
      let* session_id := or_else (req_session_id req) uuid4_str in
      let* user_msg :=
        lift (Message_validate (VStr session_id) (VStr (lit "user"))
                (VStr (req_message req))) in
      let* _ := create_document (lit "message") user_msg in
      let* reply := lift (reply_of (req_message req)) in
      let* assistant_msg :=
        lift (Message_validate (VStr session_id) (VStr (lit "assistant"))
                (VStr reply)) in
      let* _ := create_document (lit "message") assistant_msg in
      ret {| resp_session_id := session_id; resp_reply := reply |}
  end%Z.

(** The request body as FastAPI validates it into a [ChatRequest]:
    [session_id] is optional, [message] is required and has at least one
    character; a body that fails is answered before [chat] runs. *)
Definition post_api_chat (session_id : option str) (message : option str)
    : M ChatResponse :=
  match message with
  | Some m =>
      if (1 <=? length m)%nat
      then chat {| req_session_id := session_id; req_message := m |}
      else raise RequestValidationError
  | None => raise RequestValidationError
  end.

(** ** GET /api/messages *)

(** The loop of [get_messages]: each record becomes a Message, its missing
    fields taken from the defaults; a record whose Message cannot be built
    is passed over. *)
Fixpoint to_messages (session_id : str) (docs : list doc) (msgs : list Message)
    : list Message :=
  match docs with
  | [] => msgs
  | d :: docs' =>
      match Message_validate
              (dict_get d (lit "session_id") (VStr session_id))
              (dict_get d (lit "role") (VStr (lit "user")))
              (dict_get d (lit "content") (VStr (lit ""))) with
      | Ok m => to_messages session_id docs' (msgs ++ [m])
      | Raise _ => to_messages session_id docs' msgs
      end
  end.

Definition get_messages (session_id : str) (limit : Z) : M MessagesResponse :=
  let* d := get_db in
  match d with
  | None => raise (HTTPException 500 (lit "Database not available"))
  | Some _ =>
      let* docs :=
        get_documents (lit "message") {[ lit "session_id" := VStr session_id ]}
          limit in
      let msgs := to_messages session_id docs [] in
      ret {| list_session_id := session_id; list_messages := msgs |}
  end%Z.

(** The query string as FastAPI validates it: [session_id] is required,
    [limit] is an integer from 1 to 200 and 50 when left out; a query that
    fails is answered before [get_messages] runs. *)
Definition get_api_messages (session_id : option str) (limit : option Z)
    : M MessagesResponse :=
  match session_id with
  | Some sid =>
      let limit := default 50%Z limit in
      if ((1 <=? limit) && (limit <=? 200))%Z
      then get_messages sid limit
      else raise RequestValidationError
  | None => raise RequestValidationError
  end.

(** ** The properties' vocabulary *)

(** The session a chat turn runs under: the one the request names, or the
    next identifier of the generator when it names none (or an empty one). *)
Definition session_of (req : ChatRequest) (w : World) : str :=
  match req_session_id req with
  | Some (c :: s) => c :: s
  | _ => uuid4 w (uuid_calls w)
  end.

Definition uuid_calls_after (req : ChatRequest) (w : World) : nat :=
  match req_session_id req with
  | Some (_ :: _) => uuid_calls w
  | _ => S (uuid_calls w)
  end.

(** The store after a chat turn: the user's record, then the assistant's. *)
Definition store_after (st : Store) (session_id message reply : str) : Store :=
  st ++ [ (lit "message",
           model_dump {| msg_session_id := session_id; msg_role := user;
                         msg_content := message |});
          (lit "message",
           model_dump {| msg_session_id := session_id; msg_role := assistant;
                         msg_content := reply |}) ].

(** [k] occurs in [s] when the case of ASCII letters is ignored. *)
Definition str_in_nocase (k s : str) : bool :=
  str_in (List.map ascii_tolower k) (List.map ascii_tolower s).

(** The part of a message after its first colon, when it has one. *)
Fixpoint after_colon (message : str) : option str :=
  match message with
  | [] => None
  | c :: r => if c =? COLON then Some r else after_colon r
  end.

(** A text cut to 200 characters, with the ellipsis when something was cut. *)
Definition truncate (content : str) : str :=
  if (200 <? length content)%nat then firstn 200 content ++ [ELLIPSIS] else content.

Definition summary (message : str) : str :=
  SUMMARY_PREFIX ++
  truncate (match after_colon message with
            | Some rest => strip rest
            | None => message
            end).

Definition bullet_list (message : str) : str :=
  TODO_PREFIX ++
  join [NEWLINE]
    (List.map (fun line => [BULLET; 0x20] ++ strip_chars [0x20; 0x2D; BULLET] line)
       (List.filter (fun line => truthy (strip line)) (split NEWLINE message))).

(** A rule of the reply table: a test on the stripped, lower-cased text
    and the reply it gives for the message. *)
Record rule := {
  applies : str -> bool;
  answer : str -> str
}.

Definition greeting_rule : rule :=
  {| applies text := existsb (fun k => str_in k text) [lit "hello"; lit "hi"; lit "hey"];
     answer _ := GREETING |}.

Definition help_rule : rule :=
  {| applies text := str_in (lit "help") text || str_in (lit "what can you do") text;
     answer _ := HELP |}.

Definition summarize_rule : rule :=
  {| applies text := startswith text (lit "summarize:") || startswith text (lit "summarise:");
     answer := summary |}.

Definition todo_rule : rule :=
  {| applies text := startswith text (lit "todo:") || startswith text (lit "task:");
     answer := bullet_list |}.

(** The table, top to bottom. *)
Definition rules : list rule :=
  [greeting_rule; help_rule; summarize_rule; todo_rule].

(** The reply of the first rule that applies, the fallback when none does. *)
Definition first_match (message : str) : str :=
  match List.find (fun r => applies r (lower (strip message))) rules with
  | Some r => answer r message
  | None => FALLBACK
  end.

(** The Message a stored record is read as, when it can be read. *)
Definition message_of_doc (session_id : str) (d : doc) : option Message :=
  match Message_validate
          (default (VStr session_id) (d !! lit "session_id"))
          (default (VStr (lit "user")) (d !! lit "role"))
          (default (VStr (lit "")) (d !! lit "content")) with
  | Ok m => Some m
  | Raise _ => None
  end.

(** A field of a record that holds a string, or the default when the
    record lacks the field; nothing when it holds something else. *)
Definition field_or (d : doc) (key : str) (dflt : str) : option str :=
  match d !! key with
  | None => Some dflt
  | Some (VStr s) => Some s
  | Some _ => None
  end.

(** A world with an empty store, and one without a store. *)
Definition sample_uuid (n : nat) : str :=
  lit "3f2b8c1e-5d4a-4e6f-9a7b-00000000000" ++ [0x30 + N.of_nat n].

Definition sample_world : World :=
  {| db := Some []; uuid4 := sample_uuid; uuid_calls := 0 |}.

Definition no_store_world : World :=
  {| db := None; uuid4 := sample_uuid; uuid_calls := 0 |}.


(** Three texts of more than 200 characters: one with the word "this" in
    it, one that is 200 letters and a final space, one that is 201 letters
    between two spaces. *)
Definition text_with_this : str :=
  lit " this is a long text " ++ repeat 0x78 200.

Definition text_with_space : str := repeat 0x78 200 ++ [0x20].

Definition text_of_201 : str := [0x20] ++ repeat 0x78 201 ++ [0x20].

(** Three records of a store: one with no field at all, one whose role is
    a number, one with an assistant's content and no session_id. *)
Definition bare_doc : doc := ∅.

Definition odd_doc : doc := {[ lit "role" := VInt 3 ]}.

Definition assistant_doc : doc :=
  {[ lit "role" := VStr (lit "assistant"); lit "content" := VStr (lit "ok") ]}.

(** ** GET /test *)

(** What [hasattr(db, 'name')] and [db.name] find on the store handle: no
    such attribute, its value, or an exception raised while reading it. *)
Inductive attr :=
| NoAttr
| Attr (v : str)
| AttrRaises (e : str).

(** What [db.list_collection_names()] gives: the names, or an exception. *)
Inductive listing :=
| Listed (names : list str)
| ListingRaises (e : str).

(** The store handle as [test_database] questions it; [e] is [str(e)] of
    the exception. *)
Record Handle := {
  handle_name : attr;
  list_collection_names : listing
}.

(** The response of [test_database]: a dict with these six keys. *)
Record Diagnostics := {
  backend : str;
  database : str;
  database_url : option str;
  database_name : option str;
  connection_status : str;
  collections : list str
}.

Definition set_database (v : str) (r : Diagnostics) : Diagnostics :=
  {| backend := backend r; database := v; database_url := database_url r;
     database_name := database_name r; connection_status := connection_status r;
     collections := collections r |}.

Definition set_database_url (v : option str) (r : Diagnostics) : Diagnostics :=
  {| backend := backend r; database := database r; database_url := v;
     database_name := database_name r; connection_status := connection_status r;
     collections := collections r |}.

Definition set_database_name (v : option str) (r : Diagnostics) : Diagnostics :=
  {| backend := backend r; database := database r; database_url := database_url r;
     database_name := v; connection_status := connection_status r;
     collections := collections r |}.

Definition set_connection_status (v : str) (r : Diagnostics) : Diagnostics :=
  {| backend := backend r; database := database r; database_url := database_url r;
     database_name := database_name r; connection_status := v;
     collections := collections r |}.

Definition set_collections (v : list str) (r : Diagnostics) : Diagnostics :=
  {| backend := backend r; database := database r; database_url := database_url r;
     database_name := database_name r; connection_status := connection_status r;
     collections := v |}.

Definition CHECK_MARK : str := [0x2705].
Definition CROSS_MARK : str := [0x274C].
Definition WARNING_SIGN : str := [0x26A0; 0xFE0F].

(** [if os.getenv(key)]: the variable is set, and not to the empty string. *)
Definition env_set (getenv : str -> option str) (key : str) : bool :=
  match getenv key with
  | Some v => truthy v
  | None => false
  end.

(** [test_database]: the inner [try] guards the listing of the
    collections, the outer one everything asked of the handle; the two
    environment variables are reported last, over what was written
    before. *)
Definition test_database (h : Handle) (getenv : str -> option str) (w : World)
    : Diagnostics :=
  let response :=
    {| backend := CHECK_MARK ++ lit " Running";
       database := CROSS_MARK ++ lit " Not Available";
       database_url := None;
       database_name := None;
       connection_status := lit "Not Connected";
       collections := [] |} in
  let response :=
    match db w with
    | Some _ =>
        let response := set_database (CHECK_MARK ++ lit " Available") response in
        let response :=
          set_database_url (Some (CHECK_MARK ++ lit " Configured")) response in
        match handle_name h with
        | AttrRaises e =>
            set_database (CROSS_MARK ++ lit " Error: " ++ firstn 50 e) response
        | found =>
            let response :=
              set_database_name
                (Some (match found with
                       | Attr name => name
                       | _ => CHECK_MARK ++ lit " Connected"
                       end)) response in
            let response := set_connection_status (lit "Connected") response in
            match list_collection_names h with
            | Listed names =>
                let response := set_collections (firstn 10 names) response in
                set_database (CHECK_MARK ++ lit " Connected & Working") response
            | ListingRaises e =>
                set_database
                  (WARNING_SIGN ++ lit "  Connected but Error: " ++ firstn 50 e)
                  response
            end
        end
    | None =>
        set_database (WARNING_SIGN ++ lit "  Available but not initialized") response
    end in
  let response :=
    set_database_url
      (Some (if env_set getenv (lit "DATABASE_URL")
             then CHECK_MARK ++ lit " Set" else CROSS_MARK ++ lit " Not Set"))
      response in
  let response :=
    set_database_name
      (Some (if env_set getenv (lit "DATABASE_NAME")
             then CHECK_MARK ++ lit " Set" else CROSS_MARK ++ lit " Not Set"))
      response in
  response.

(** ** Further vocabulary *)

(** The records of a session in the store, oldest first: what the query of
    [get_messages] finds when the limit does not cut it. *)
Definition session_records (st : Store) (session_id : str) : list doc :=
  List.map snd
    (List.filter
       (fun r => bool_decide (r.1 = lit "message")
                 && matches {[ lit "session_id" := VStr session_id ]} r.2) st).

(** The lines of a message that the todo rule lists. *)
Definition listed_lines (message : str) : list str :=
  List.filter (fun line => truthy (strip line)) (split NEWLINE message).

(** A handle whose listing fails with a long message, one that lists
    twelve collections, and two environments. *)
Definition failing_handle : Handle :=
  {| handle_name := Attr (lit "vionix");
     list_collection_names := ListingRaises (repeat 0x21 80) |}.

Definition busy_handle : Handle :=
  {| handle_name := Attr (lit "vionix");
     list_collection_names := Listed (List.map (fun n => [0x63; 0x30 + N.of_nat n]) (seq 0 12)) |}.

Definition empty_env : str -> option str := fun _ => None.

Definition url_env : str -> option str :=
  fun key => if decide (key = lit "DATABASE_URL") then Some (lit "mongodb://db") else Some [].

(** A store with one earlier turn of session "s1" and a record of another
    session. *)
Definition sample_store : Store :=
  [ (lit "message",
     model_dump {| msg_session_id := lit "s1"; msg_role := user; msg_content := lit "hi" |});
    (lit "message",
     model_dump {| msg_session_id := lit "s2"; msg_role := user; msg_content := lit "yo" |});
    (lit "message",
     model_dump {| msg_session_id := lit "s1"; msg_role := assistant; msg_content := GREETING |}) ].

Definition stored_world : World :=
  {| db := Some sample_store; uuid4 := sample_uuid; uuid_calls := 0 |}.

(** ** Facts about the string operations *)

Lemma startswith_app (p t : str) : startswith (p ++ t) p = true.
Proof.
  induction p as [|a p IH]; simpl; [reflexivity|].
  rewrite N.eqb_refl. exact IH.
Qed.

Lemma startswith_inv (s p : str) :
  startswith s p = true -> exists t, s = p ++ t.
Proof.
  revert s. induction p as [|a p IH]; intros s H.
  - exists s. reflexivity.
  - destruct s as [|b s]; simpl in H; [discriminate|].
    apply andb_prop in H as [Hab Hs].
    apply N.eqb_eq in Hab. subst b.
    destruct (IH _ Hs) as [t ->]. exists t. reflexivity.
Qed.

Lemma str_in_startswith (k s : str) : startswith s k = true -> str_in k s = true.
Proof. intros H. destruct s; simpl; rewrite H; reflexivity. Qed.

Lemma str_in_app (k pre post : str) : str_in k (pre ++ k ++ post) = true.
Proof.
  induction pre as [|c pre IH].
  - apply str_in_startswith. exact (startswith_app k post).
  - simpl. rewrite IH. apply orb_true_r.
Qed.

Lemma str_in_inv (k s : str) :
  str_in k s = true -> exists pre post, s = pre ++ k ++ post.
Proof.
  induction s as [|c s IH]; simpl; intros H.
  - rewrite orb_false_r in H. apply startswith_inv in H as [t Ht].
    exists [], t. exact Ht.
  - apply orb_prop in H as [H|H].
    + apply startswith_inv in H as [t Ht]. exists [], t. exact Ht.
    + destruct (IH H) as (pre & post & ->). exists (c :: pre), post. reflexivity.
Qed.

Lemma lstrip_by_keep (p : char -> bool) (a b : str) (c : char) :
  p c = false -> lstrip_by p (a ++ c :: b) = lstrip_by p a ++ c :: b.
Proof.
  intros Hc. induction a as [|x a IH]; simpl.
  - rewrite Hc. reflexivity.
  - destruct (p x); [exact IH | reflexivity].
Qed.

Lemma rstrip_by_keep (p : char -> bool) (a b : str) (c : char) :
  p c = false -> rstrip_by p (a ++ c :: b) = a ++ c :: rstrip_by p b.
Proof.
  intros Hc. unfold rstrip_by.
  rewrite rev_app_distr. simpl. rewrite <- app_assoc. simpl.
  rewrite (lstrip_by_keep p (rev b) (rev a) c Hc).
  rewrite rev_app_distr. simpl.
  rewrite rev_involutive, <- app_assoc. reflexivity.
Qed.

(** Stripping keeps a non-empty run of characters that are not stripped,
    wherever it stands in the string, and strips on both sides of it. *)
Lemma strip_by_keep (p : char -> bool) (pre mid post : str) :
  mid <> [] -> Forall (fun c => p c = false) mid ->
  strip_by p (pre ++ mid ++ post) = lstrip_by p pre ++ mid ++ rstrip_by p post.
Proof.
  intros Hne Hall. unfold strip_by.
  assert (L : lstrip_by p (pre ++ mid ++ post) = lstrip_by p pre ++ mid ++ post).
  { destruct mid as [|c mid']; [congruence|].
    apply (lstrip_by_keep p pre (mid' ++ post) c), (Forall_inv Hall). }
  rewrite L.
  destruct (exists_last Hne) as (m0 & z & ->).
  assert (Hz : p z = false).
  { apply Forall_app in Hall as [_ Hall]. apply (Forall_inv Hall). }
  rewrite <- !app_assoc. simpl. rewrite (app_assoc (lstrip_by p pre) m0).
  rewrite (rstrip_by_keep p _ post z Hz).
  rewrite <- !app_assoc. reflexivity.
Qed.

Lemma lower_from_app (s : str) (i : nat) (a b : str) :
  lower_from s i (a ++ b) = lower_from s i a ++ lower_from s (i + length a) b.
Proof.
  revert i. induction a as [|c a IH]; intros i; simpl.
  - rewrite Nat.add_0_r. reflexivity.
  - rewrite IH, <- app_assoc. do 3 f_equal. lia.
Qed.

Lemma lower_from_ascii (s : str) (i : nat) (a : str) :
  Forall (fun c => c < 0x80) a -> lower_from s i a = List.map ascii_tolower a.
Proof.
  revert i. induction a as [|c a IH]; intros i H; simpl; [reflexivity|].
  inversion H as [|? ? Hc Ha]; subst.
  unfold lower_ucs4. apply N.ltb_lt in Hc. rewrite Hc. simpl.
  rewrite IH by assumption. reflexivity.
Qed.

(** Lower-casing keeps a run of ASCII characters in place, lower-cased. *)
Lemma lower_keep (pre mid post : str) :
  Forall (fun c => c < 0x80) mid ->
  lower (pre ++ mid ++ post)
  = lower_from (pre ++ mid ++ post) 0 pre ++ List.map ascii_tolower mid
    ++ lower_from (pre ++ mid ++ post) (length pre + length mid) post.
Proof.
  intros H. unfold lower at 1.
  rewrite !lower_from_app, (lower_from_ascii _ _ mid H). reflexivity.
Qed.

(** ** The reply rules *)

Lemma str_in_colon_cons (c : char) (m : str) :
  str_in [COLON] (c :: m) = (c =? COLON) || str_in [COLON] m.
Proof.
  cbn [str_in startswith]. rewrite andb_true_r, (N.eqb_sym COLON c). reflexivity.
Qed.

(** [split(":", 1)] cuts at the first colon, and has a second part exactly
    when the message has a colon. *)
Lemma split1_colon (m : str) :
  match after_colon m with
  | Some rest => str_in [COLON] m = true /\ exists before, split1 COLON m = [before; rest]
  | None => str_in [COLON] m = false /\ split1 COLON m = [m]
  end.
Proof.
  induction m as [|c m IH].
  - split; reflexivity.
  - rewrite str_in_colon_cons. cbn [after_colon split1].
    destruct (c =? COLON).
    + split; [reflexivity|]. exists []. reflexivity.
    + cbn [orb]. destruct (after_colon m) as [rest|].
      * destruct IH as [-> [before ->]]. split; [reflexivity|].
        exists (c :: before). reflexivity.
      * destruct IH as [-> ->]. split; reflexivity.
Qed.

Lemma content_after_colon (m : str) :
  (if str_in [COLON] m
   then result_bind (getitem (split1 COLON m) 1) (fun x => Ok (strip x))
   else Ok m)
  = Ok (match after_colon m with Some rest => strip rest | None => m end).
Proof.
  pose proof (split1_colon m) as H.
  destruct (after_colon m) as [rest|].
  - destruct H as [-> [before ->]]. reflexivity.
  - destruct H as [-> _]. reflexivity.
Qed.

Lemma truncate_firstn (content : str) :
  firstn 200 content ++ (if (200 <? length content)%nat then [ELLIPSIS] else [])
  = truncate content.
Proof.
  unfold truncate. destruct (200 <? length content)%nat eqn:E; [reflexivity|].
  apply Nat.ltb_ge in E. rewrite firstn_all2 by exact E. apply app_nil_r.
Qed.

Lemma reply_of_first_match (message : str) :
  reply_of message = Ok (first_match message).
Proof.
  unfold reply_of, first_match, rules. cbn [List.find].
  change (applies greeting_rule (lower (strip message)))
    with (existsb (fun k => str_in k (lower (strip message))) [lit "hello"; lit "hi"; lit "hey"]).
  destruct (existsb _ _); [reflexivity|].
  change (applies help_rule (lower (strip message)))
    with (str_in (lit "help") (lower (strip message))
          || str_in (lit "what can you do") (lower (strip message))).
  destruct (_ || _); [reflexivity|].
  change (applies summarize_rule (lower (strip message)))
    with (startswith (lower (strip message)) (lit "summarize:")
          || startswith (lower (strip message)) (lit "summarise:")).
  destruct (_ || _).
  { rewrite content_after_colon. cbn [result_bind answer summarize_rule].
    unfold summary. rewrite truncate_firstn. reflexivity. }
  change (applies todo_rule (lower (strip message)))
    with (startswith (lower (strip message)) (lit "todo:")
          || startswith (lower (strip message)) (lit "task:")).
  destruct (_ || _); [|reflexivity].
  cbn [answer todo_rule]. unfold bullet_list. rewrite List.map_map. reflexivity.
Qed.

(** ** Keywords survive stripping and lower-casing *)

Lemma isspace_false_iff (c : char) :
  isspace c = false <->
  ~ (0x9 <= c <= 0xD \/ 0x1C <= c <= 0x20 \/ c = 0x85 \/ c = 0xA0 \/ c = 0x1680
     \/ 0x2000 <= c <= 0x200A \/ c = 0x2028 \/ c = 0x2029 \/ c = 0x202F
     \/ c = 0x205F \/ c = 0x3000).
Proof.
  unfold isspace.
  rewrite !orb_false_iff, !andb_false_iff, !N.leb_gt, !N.eqb_neq. lia.
Qed.

Lemma ascii_tolower_ascii (c : char) : ascii_tolower c < 0x80 -> c < 0x80.
Proof.
  unfold ascii_tolower.
  destruct ((0x41 <=? c) && (c <=? 0x5A)) eqn:E; [|tauto].
  apply andb_prop in E as [_ E]. apply N.leb_le in E. lia.
Qed.

Lemma ascii_tolower_isspace (c : char) :
  isspace (ascii_tolower c) = false -> isspace c = false.
Proof.
  unfold ascii_tolower.
  destruct ((0x41 <=? c) && (c <=? 0x5A)) eqn:E; [|tauto].
  apply andb_prop in E as [E1 E2]. apply N.leb_le in E1, E2.
  intros _. apply isspace_false_iff. lia.
Qed.

(** A run of the message that spells an ASCII word without white space,
    whatever its case, is found in the stripped, lower-cased text. *)
Lemma nocase_word_in_text (k message : str) :
  k <> [] ->
  Forall (fun c => c < 0x80 /\ isspace c = false) k ->
  List.map ascii_tolower k = k ->
  str_in_nocase k message = true ->
  str_in k (lower (strip message)) = true.
Proof.
  intros Hne Hk Hlow H. unfold str_in_nocase in H. rewrite Hlow in H.
  apply str_in_inv in H as (pre & post & H).
  apply List.map_eq_app in H as (a & rest & -> & <- & H).
  apply List.map_eq_app in H as (mid & b & -> & <- & <-).
  assert (Hmid : Forall (fun c => c < 0x80 /\ isspace c = false) mid).
  { apply Forall_map in Hk. eapply Forall_impl; [exact Hk|].
    intros c [H1 H2]. split.
    - apply ascii_tolower_ascii, H1.
    - apply ascii_tolower_isspace, H2. }
  assert (Hmid0 : mid <> []) by (intros ->; apply Hne; reflexivity).
  unfold strip. rewrite (strip_by_keep isspace a mid b Hmid0).
  2:{ eapply Forall_impl; [exact Hmid|]. intros c [_ Hc]. exact Hc. }
  rewrite lower_keep.
  2:{ eapply Forall_impl; [exact Hmid|]. intros c [Hc _]. exact Hc. }
  apply str_in_app.
Qed.

Lemma greeting_keyword_in_text (k message : str) :
  In k [lit "hello"; lit "hi"; lit "hey"] ->
  str_in_nocase k message = true ->
  str_in k (lower (strip message)) = true.
Proof.
  intros Hk. apply nocase_word_in_text.
  - destruct Hk as [<-|[<-|[<-|[]]]]; discriminate.
  - destruct Hk as [<-|[<-|[<-|[]]]]; vm_compute; repeat constructor.
  - destruct Hk as [<-|[<-|[<-|[]]]]; reflexivity.
Qed.

Lemma reply_of_greeting (k message : str) :
  In k [lit "hello"; lit "hi"; lit "hey"] ->
  str_in_nocase k message = true ->
  reply_of message = Ok GREETING.
Proof.
  intros Hk H. unfold reply_of.
  replace (existsb _ _) with true; [reflexivity|].
  symmetry. apply existsb_exists. exists k. split; [exact Hk|].
  apply greeting_keyword_in_text; assumption.
Qed.

(** The rule engine always has a reply. *)
Lemma rule_engine_reply (message : str) : exists reply, reply_of message = Ok reply.
Proof. exists (first_match message). apply reply_of_first_match. Qed.

(** ** The summary rule *)

Lemma summarize_prefix_in_text (p t : str) :
  In p [lit "summarize:"; lit "summarise:"] ->
  startswith (lower (strip (p ++ t))) p = true.
Proof.
  intros Hp. unfold strip.
  assert (H : p <> [] /\ Forall (fun c => c < 0x80 /\ isspace c = false) p
              /\ List.map ascii_tolower p = p).
  { destruct Hp as [<-|[<-|[]]]; (split; [discriminate|]);
      (split; [vm_compute; repeat constructor | reflexivity]). }
  destruct H as (Hne & Hall & Hlow).
  change (p ++ t) with ([] ++ p ++ t).
  rewrite (strip_by_keep isspace [] p t Hne).
  2:{ eapply Forall_impl; [exact Hall|]. intros c [_ Hc]. exact Hc. }
  rewrite lower_keep.
  2:{ eapply Forall_impl; [exact Hall|]. intros c [Hc _]. exact Hc. }
  rewrite Hlow. apply (startswith_app p).
Qed.

Lemma after_colon_summarize (p t : str) :
  In p [lit "summarize:"; lit "summarise:"] -> after_colon (p ++ t) = Some t.
Proof. intros [<-|[<-|[]]]; reflexivity. Qed.

Lemma reply_of_summarize (p t : str) :
  In p [lit "summarize:"; lit "summarise:"] ->
  Forall (fun k => str_in k (lower (strip (p ++ t))) = false)
    [lit "hello"; lit "hi"; lit "hey"; lit "help"; lit "what can you do"] ->
  reply_of (p ++ t) = Ok (SUMMARY_PREFIX ++ truncate (strip t)).
Proof.
  intros Hp Hk. rewrite reply_of_first_match. unfold first_match, rules.
  assert (Hg : applies greeting_rule (lower (strip (p ++ t))) = false).
  { cbn [applies greeting_rule existsb].
    rewrite !Forall_cons in Hk. destruct Hk as (-> & -> & -> & _). reflexivity. }
  assert (Hh : applies help_rule (lower (strip (p ++ t))) = false).
  { cbn [applies help_rule].
    rewrite !Forall_cons in Hk. destruct Hk as (_ & _ & _ & -> & -> & _). reflexivity. }
  assert (Hs : applies summarize_rule (lower (strip (p ++ t))) = true).
  { cbn [applies summarize_rule]. apply orb_true_iff.
    pose proof (summarize_prefix_in_text p t Hp) as H.
    destruct Hp as [<-|[<-|[]]]; [left|right]; exact H. }
  cbn [List.find]. rewrite Hg, Hh, Hs. cbn [answer summarize_rule].
  unfold summary. rewrite (after_colon_summarize p t Hp). reflexivity.
Qed.

(** ** One chat turn *)

Lemma Message_validate_user (sid c : str) :
  Message_validate (VStr sid) (VStr (lit "user")) (VStr c)
  = Ok {| msg_session_id := sid; msg_role := user; msg_content := c |}.
Proof. reflexivity. Qed.

Lemma Message_validate_assistant (sid c : str) :
  Message_validate (VStr sid) (VStr (lit "assistant")) (VStr c)
  = Ok {| msg_session_id := sid; msg_role := assistant; msg_content := c |}.
Proof. reflexivity. Qed.

Lemma or_else_uuid4 (req : ChatRequest) (w : World) :
  or_else (req_session_id req) uuid4_str w
  = (Ok (session_of req w),
     {| db := db w; uuid4 := uuid4 w; uuid_calls := uuid_calls_after req w |}).
Proof.
  unfold or_else, session_of, uuid_calls_after.
  destruct w as [d u n]. destruct (req_session_id req) as [[|c s]|]; reflexivity.
Qed.

(** With the store available, a turn whose reply is [r] answers [r] under
    [session_of] and leaves the two records behind. *)
Lemma chat_run (w : World) (st : Store) (req : ChatRequest) (r : str) :
  db w = Some st ->
  reply_of (req_message req) = Ok r ->
  chat req w
  = (Ok {| resp_session_id := session_of req w; resp_reply := r |},
     {| db := Some (store_after st (session_of req w) (req_message req) r);
        uuid4 := uuid4 w;
        uuid_calls := uuid_calls_after req w |}).
Proof.
  intros Hdb Hr. unfold chat, bind at 1, get_db. rewrite Hdb.
  unfold bind at 1. rewrite or_else_uuid4.
  unfold bind at 1, lift at 1. rewrite Message_validate_user.
  unfold bind at 1, create_document at 1. simpl db. rewrite Hdb.
  unfold bind at 1, lift at 1. rewrite Hr.
  unfold bind at 1, lift at 1. rewrite Message_validate_assistant.
  unfold bind at 1, create_document at 1. simpl.
  unfold ret, store_after. rewrite <- app_assoc. reflexivity.
Qed.

(** ** Reading the history *)

Lemma to_messages_cons (sid : str) (d : doc) (docs : list doc) (acc : list Message) :
  to_messages sid (d :: docs) acc
  = to_messages sid docs (acc ++ option_list (message_of_doc sid d)).
Proof.
  cbn [to_messages]. unfold message_of_doc, dict_get.
  destruct (Message_validate _ _ _) as [m|e]; simpl; [reflexivity|].
  rewrite app_nil_r. reflexivity.
Qed.

(** The loop keeps, in order, the records a Message can be built from. *)
Lemma to_messages_acc (sid : str) (docs : list doc) (acc : list Message) :
  to_messages sid docs acc = acc ++ omap (message_of_doc sid) docs.
Proof.
  revert acc. induction docs as [|d docs IH]; intros acc.
  - simpl. rewrite app_nil_r. reflexivity.
  - rewrite to_messages_cons, IH. cbn [omap list_omap].
    destruct (message_of_doc sid d); simpl; rewrite <- app_assoc; reflexivity.
Qed.

Lemma get_messages_run (w : World) (st : Store) (sid : str) (limit : Z) :
  db w = Some st ->
  get_messages sid limit w
  = (Ok {| list_session_id := sid;
           list_messages :=
             to_messages sid
               (find_documents st (lit "message") {[ lit "session_id" := VStr sid ]} limit)
               [] |}, w).
Proof.
  intros Hdb. unfold get_messages, bind, get_db, get_documents, ret.
  rewrite Hdb. cbn beta iota. rewrite Hdb. reflexivity.
Qed.

Lemma field_or_dict_get (d : doc) (key dflt s : str) :
  field_or d key dflt = Some s -> default (VStr dflt) (d !! key) = VStr s.
Proof.
  unfold field_or. destruct (d !! key) as [[]|]; simpl; congruence.
Qed.

(** ** The properties of the specification *)

(** C1, as the code has it. A message that is "summarize:" or "summarise:"
    followed by a text, and whose stripped, lower-cased form contains none
    of the greeting and help keywords (those rules come first), is answered
    with the summary template followed by the text stripped of surrounding
    white space: its first 200 characters and the ellipsis when the
    stripped text is longer than 200 characters, the whole stripped text
    and no ellipsis otherwise. *)
Theorem summarize_reply (w : World) (st : Store) (sid : option str) (p t : str) :
  db w = Some st ->
  In p [lit "summarize:"; lit "summarise:"] ->
  Forall (fun k => str_in k (lower (strip (p ++ t))) = false)
    [lit "hello"; lit "hi"; lit "hey"; lit "help"; lit "what can you do"] ->
  exists resp w',
    chat {| req_session_id := sid; req_message := p ++ t |} w = (Ok resp, w') /\
    ((200 < length (strip t))%nat ->
       resp_reply resp = SUMMARY_PREFIX ++ firstn 200 (strip t) ++ [ELLIPSIS]) /\
    ((length (strip t) <= 200)%nat ->
       resp_reply resp = SUMMARY_PREFIX ++ strip t).
Proof.
  intros Hdb Hp Hk.
  pose proof (reply_of_summarize p t Hp Hk) as Hr.
  eexists _, _. split.
  - apply (chat_run w st {| req_session_id := sid; req_message := p ++ t |} _ Hdb Hr).
  - cbn [resp_reply]. unfold truncate. split; intros Hlen.
    + apply Nat.ltb_lt in Hlen. rewrite Hlen. reflexivity.
    + apply Nat.ltb_ge in Hlen. rewrite Hlen. reflexivity.
Qed.

(** C2. The rule engine is total and ordered: every message gets a reply,
    never an error, and the reply is that of the first rule that applies
    in the order greeting, help, summarize, todo/task, with the generic
    fallback when none applies. *)
Theorem rule_engine_total_ordered (message : str) :
  exists reply, reply_of message = Ok reply /\ reply = first_match message.
Proof.
  exists (first_match message). split; [apply reply_of_first_match | reflexivity].
Qed.

(** C3. For the message "todo:", "- a", "- b" on three lines, the reply
    lists a and b as bullets, a before b (after the bullet of the "todo:"
    line itself). *)
Theorem todo_example (w : World) (st : Store) (sid : option str) :
  db w = Some st ->
  exists resp w',
    chat {| req_session_id := sid;
            req_message := lit "todo:" ++ [NEWLINE] ++ lit "- a" ++ [NEWLINE] ++ lit "- b" |} w
    = (Ok resp, w') /\
    resp_reply resp
    = lit "Added to your list:" ++ [NEWLINE]
      ++ [BULLET] ++ lit " todo:" ++ [NEWLINE]
      ++ [BULLET] ++ lit " a" ++ [NEWLINE]
      ++ [BULLET] ++ lit " b".
Proof.
  intros Hdb. eexists _, _. split.
  - eapply chat_run; [exact Hdb | vm_compute; reflexivity].
  - reflexivity.
Qed.

(** C4. A message that contains hello, hi or hey, in any case, is answered
    with the greeting template: the reply starts with it (and is it). *)
Theorem greeting_reply (w : World) (st : Store) (req : ChatRequest) (k : str) :
  db w = Some st ->
  In k [lit "hello"; lit "hi"; lit "hey"] ->
  str_in_nocase k (req_message req) = true ->
  exists resp w',
    chat req w = (Ok resp, w') /\
    startswith (resp_reply resp) GREETING = true /\
    resp_reply resp = GREETING.
Proof.
  intros Hdb Hk H.
  eexists _, _. split.
  - exact (chat_run w st req GREETING Hdb (reply_of_greeting k _ Hk H)).
  - split; reflexivity.
Qed.

(** C5. Without a store handle, both handlers fail with status 500 and the
    detail "Database not available", and do nothing else; so do the two
    routes on every request that passes their validation. *)
Theorem store_unavailable (w : World) (req : ChatRequest) (sid : str) (limit : Z) :
  db w = None ->
  chat req w = (Raise (HTTPException 500 (lit "Database not available")), w) /\
  get_messages sid limit w
  = (Raise (HTTPException 500 (lit "Database not available")), w) /\
  (forall session_id message, message <> [] ->
     post_api_chat session_id (Some message) w
     = (Raise (HTTPException 500 (lit "Database not available")), w)) /\
  ((1 <= limit <= 200)%Z ->
     get_api_messages (Some sid) (Some limit) w
     = (Raise (HTTPException 500 (lit "Database not available")), w)) /\
  get_api_messages (Some sid) None w
  = (Raise (HTTPException 500 (lit "Database not available")), w).
Proof.
  intros Hdb.
  assert (Hchat : forall r, chat r w
            = (Raise (HTTPException 500 (lit "Database not available")), w)).
  { intros r. unfold chat, bind, get_db. rewrite Hdb. reflexivity. }
  assert (Hget : forall l, get_messages sid l w
            = (Raise (HTTPException 500 (lit "Database not available")), w)).
  { intros l. unfold get_messages, bind, get_db. rewrite Hdb. reflexivity. }
  split; [apply Hchat|]. split; [apply Hget|]. split; [|split].
  - intros session_id [|c message] Hne; [congruence|]. apply Hchat.
  - intros [H1 H2]. unfold get_api_messages.
    change (default 50%Z (Some limit)) with limit. cbv zeta.
    apply Z.leb_le in H1, H2. rewrite H1, H2. apply Hget.
  - apply Hget.
Qed.

(** C6. GET /api/messages with a limit below 1 or above 200 is refused by
    the validation of the query, whatever the state of the store and
    without touching it; without a limit the handler runs with limit 50. *)
Theorem limit_validated (w : World) (sid : str) :
  (forall limit : Z, (limit < 1 \/ 200 < limit)%Z ->
     get_api_messages (Some sid) (Some limit) w = (Raise RequestValidationError, w)) /\
  get_api_messages (Some sid) None w = get_messages sid 50 w.
Proof.
  split; [|reflexivity].
  intros limit H. unfold get_api_messages.
  change (default 50%Z (Some limit)) with limit. cbv zeta.
  replace ((1 <=? limit) && (limit <=? 200))%Z with false; [reflexivity|].
  symmetry. apply andb_false_iff. rewrite Z.leb_gt, Z.leb_gt. lia.
Qed.


(** C8. With the store available, a chat request leaves exactly two new
    records behind, after the earlier ones: first the user's, holding the
    request's message as sent, then the assistant's, holding the reply
    that is returned, both under the session_id of the response. *)
Theorem chat_persists (w : World) (st : Store) (req : ChatRequest) :
  db w = Some st ->
  exists resp w',
    chat req w = (Ok resp, w') /\
    db w' =
      Some (st ++
            [ (lit "message",
               model_dump {| msg_session_id := resp_session_id resp;
                             msg_role := user;
                             msg_content := req_message req |});
              (lit "message",
               model_dump {| msg_session_id := resp_session_id resp;
                             msg_role := assistant;
                             msg_content := resp_reply resp |}) ]).
Proof.
  intros Hdb. destruct (rule_engine_reply (req_message req)) as [r Hr].
  eexists _, _. split.
  - apply (chat_run w st req r Hdb Hr).
  - reflexivity.
Qed.

(** C9. A chat request whose session_id is the empty string is treated as
    one without session_id: the next identifier of the generator is drawn
    and returned. *)
Theorem empty_session_id (w : World) (st : Store) (message : str) :
  db w = Some st ->
  chat {| req_session_id := Some []; req_message := message |} w
  = chat {| req_session_id := None; req_message := message |} w /\
  exists resp w',
    chat {| req_session_id := Some []; req_message := message |} w = (Ok resp, w') /\
    resp_session_id resp = uuid4 w (uuid_calls w) /\
    uuid_calls w' = S (uuid_calls w).
Proof.
  intros Hdb. split; [reflexivity|].
  destruct (rule_engine_reply message) as [r Hr].
  eexists _, _. split.
  - apply (chat_run w st {| req_session_id := Some []; req_message := message |} r Hdb Hr).
  - split; reflexivity.
Qed.

(** C10. In the loop of GET /api/messages a record that lacks session_id,
    role or content is kept, the lacking field read as the queried
    session_id, as user, or as the empty content; the messages returned
    are, in order, those of the records a Message can be built from, so
    that a record is passed over only when building its Message fails, and
    the others are returned all the same. *)
Theorem missing_fields_defaulted (sid : str) (docs : list doc) :
  to_messages sid docs [] = omap (message_of_doc sid) docs /\
  (forall d s r c,
     In d docs ->
     field_or d (lit "session_id") sid = Some s ->
     field_or d (lit "role") (lit "user") = Some (str_of_role r) ->
     field_or d (lit "content") (lit "") = Some c ->
     In {| msg_session_id := s; msg_role := r; msg_content := c |}
        (to_messages sid docs [])) /\
  (forall w st limit,
     db w = Some st ->
     find_documents st (lit "message") {[ lit "session_id" := VStr sid ]} limit = docs ->
     get_messages sid limit w
     = (Ok {| list_session_id := sid; list_messages := to_messages sid docs [] |}, w)).
Proof.
  split; [apply (to_messages_acc sid docs [])|]. split.
  - intros d s r c Hd Hs Hr Hc. rewrite (to_messages_acc sid docs []). simpl.
    apply list_elem_of_In, list_elem_of_omap. exists d.
    split; [apply list_elem_of_In, Hd|].
    unfold message_of_doc.
    rewrite (field_or_dict_get _ _ _ _ Hs), (field_or_dict_get _ _ _ _ Hr),
      (field_or_dict_get _ _ _ _ Hc).
    destruct r; reflexivity.
  - intros w st limit Hdb <-. apply get_messages_run, Hdb.
Qed.

(** ** Further properties of the chat turn *)

(** X1. A chat request that names a session (a non-empty session_id) is
    answered under that very session, and no identifier is drawn from the
    generator. *)
Theorem session_id_kept (w : World) (st : Store) (s message : str) :
  db w = Some st ->
  s <> [] ->
  exists resp w',
    chat {| req_session_id := Some s; req_message := message |} w = (Ok resp, w') /\
    resp_session_id resp = s /\
    uuid_calls w' = uuid_calls w.
Proof.
  intros Hdb Hs. destruct (rule_engine_reply message) as [r Hr].
  eexists _, _. split.
  - apply (chat_run w st {| req_session_id := Some s; req_message := message |} r Hdb Hr).
  - destruct s as [|c s]; [congruence|]. split; reflexivity.
Qed.

(** X2. The reply depends on the message alone: whatever the session and
    whatever the store holds, the same message gets the same reply. *)
Theorem reply_ignores_history (w1 w2 : World) (st1 st2 : Store)
    (s1 s2 : option str) (message : str) :
  db w1 = Some st1 ->
  db w2 = Some st2 ->
  exists resp1 w1' resp2 w2',
    chat {| req_session_id := s1; req_message := message |} w1 = (Ok resp1, w1') /\
    chat {| req_session_id := s2; req_message := message |} w2 = (Ok resp2, w2') /\
    resp_reply resp1 = resp_reply resp2.
Proof.
  intros H1 H2. destruct (rule_engine_reply message) as [r Hr].
  eexists _, _, _, _. split; [|split].
  - apply (chat_run w1 st1 {| req_session_id := s1; req_message := message |} r H1 Hr).
  - apply (chat_run w2 st2 {| req_session_id := s2; req_message := message |} r H2 Hr).
  - reflexivity.
Qed.

Lemma truncate_length (content : str) : (length (truncate content) <= 201)%nat.
Proof.
  unfold truncate. destruct (200 <? length content)%nat eqn:E.
  - rewrite length_app, length_firstn. cbn [length]. lia.
  - apply Nat.ltb_ge in E. lia.
Qed.

(** X3. No reply is empty: whatever the message, the rule engine answers
    with at least one character. *)
Theorem reply_not_empty (message : str) :
  exists c r, reply_of message = Ok (c :: r).
Proof.
  rewrite reply_of_first_match. unfold first_match, rules. cbn [List.find].
  destruct (applies greeting_rule _); [eexists _, _; reflexivity|].
  destruct (applies help_rule _); [eexists _, _; reflexivity|].
  destruct (applies summarize_rule _); [eexists _, _; reflexivity|].
  destruct (applies todo_rule _); eexists _, _; reflexivity.
Qed.

(** X4. A summary is short: when the summarize rule is the first to apply,
    the reply is the summary template followed by at most 201 characters,
    227 characters in all, however long the message. *)
Theorem summary_bounded (message : str) :
  applies greeting_rule (lower (strip message)) = false ->
  applies help_rule (lower (strip message)) = false ->
  applies summarize_rule (lower (strip message)) = true ->
  exists body,
    reply_of message = Ok (SUMMARY_PREFIX ++ body) /\
    (length body <= 201)%nat /\
    (length (SUMMARY_PREFIX ++ body) <= 227)%nat.
Proof.
  intros Hg Hh Hs. rewrite reply_of_first_match. unfold first_match, rules.
  cbn [List.find]. rewrite Hg, Hh, Hs. cbn [answer summarize_rule]. unfold summary.
  eexists. split; [reflexivity|].
  pose proof (truncate_length
                match after_colon message with
                | Some rest => strip rest
                | None => message
                end) as H.
  split; [exact H|]. rewrite length_app.
  change (length SUMMARY_PREFIX) with 26%nat. lia.
Qed.


(** ** Keywords in any case, phrases with spaces *)

Lemma strip_by_keep_ends (p : char -> bool) (pre mid post : str) (d : char) :
  mid <> [] ->
  p (List.hd d mid) = false ->
  p (List.last mid d) = false ->
  strip_by p (pre ++ mid ++ post) = lstrip_by p pre ++ mid ++ rstrip_by p post.
Proof.
  intros Hne Hhd Hlast. unfold strip_by.
  assert (L : lstrip_by p (pre ++ mid ++ post) = lstrip_by p pre ++ mid ++ post).
  { destruct mid as [|c mid']; [congruence|].
    apply (lstrip_by_keep p pre (mid' ++ post) c), Hhd. }
  rewrite L.
  destruct (exists_last Hne) as (m0 & z & ->).
  rewrite List.last_last in Hlast.
  rewrite <- !app_assoc. simpl. rewrite (app_assoc (lstrip_by p pre) m0).
  rewrite (rstrip_by_keep p _ post z Hlast).
  rewrite <- !app_assoc. reflexivity.
Qed.

Lemma lstrip_by_all (p : char -> bool) (s : str) :
  Forall (fun c => p c = true) s -> lstrip_by p s = [].
Proof.
  induction 1 as [|c s Hc _ IH]; simpl; [reflexivity|]. rewrite Hc. exact IH.
Qed.

(** A run of the message that spells an ASCII phrase, whatever its case,
    is found in the stripped, lower-cased text when the phrase neither
    starts nor ends with white space. *)
Lemma nocase_phrase_in_text (k message : str) :
  k <> [] ->
  Forall (fun c => c < 0x80) k ->
  isspace (List.hd 0 k) = false ->
  isspace (List.last k 0) = false ->
  List.map ascii_tolower k = k ->
  str_in_nocase k message = true ->
  str_in k (lower (strip message)) = true.
Proof.
  intros Hne Hk Hhd Hlast Hlow H. unfold str_in_nocase in H. rewrite Hlow in H.
  apply str_in_inv in H as (pre & post & H).
  apply List.map_eq_app in H as (a & rest & -> & <- & H).
  apply List.map_eq_app in H as (mid & b & -> & <- & <-).
  assert (Hmid0 : mid <> []) by (intros ->; apply Hne; reflexivity).
  assert (Hascii : Forall (fun c => c < 0x80) mid).
  { apply Forall_map in Hk. eapply Forall_impl; [exact Hk|].
    intros c. apply ascii_tolower_ascii. }
  unfold strip. rewrite (strip_by_keep_ends isspace a mid b 0 Hmid0).
  - rewrite (lower_keep _ _ _ Hascii). apply str_in_app.
  - destruct mid as [|c mid']; [congruence|]. apply ascii_tolower_isspace, Hhd.
  - destruct (exists_last Hmid0) as (m0 & z & ->).
    rewrite List.map_app in Hlast. cbn [List.map] in Hlast.
    rewrite List.last_last in Hlast. rewrite List.last_last.
    apply ascii_tolower_isspace, Hlast.
Qed.

Lemma help_keyword_in_text (k message : str) :
  In k [lit "help"; lit "what can you do"] ->
  str_in_nocase k message = true ->
  str_in k (lower (strip message)) = true.
Proof.
  intros Hk. apply nocase_phrase_in_text.
  - destruct Hk as [<-|[<-|[]]]; discriminate.
  - destruct Hk as [<-|[<-|[]]]; vm_compute; repeat constructor.
  - destruct Hk as [<-|[<-|[]]]; reflexivity.
  - destruct Hk as [<-|[<-|[]]]; reflexivity.
  - destruct Hk as [<-|[<-|[]]]; reflexivity.
Qed.

(** X5. A message that contains "help" or "what can you do", in any case,
    and whose stripped, lower-cased form holds none of the greeting
    keywords, is answered with the help template. *)
Theorem help_reply (w : World) (st : Store) (req : ChatRequest) (k : str) :
  db w = Some st ->
  In k [lit "help"; lit "what can you do"] ->
  str_in_nocase k (req_message req) = true ->
  Forall (fun g => str_in g (lower (strip (req_message req))) = false)
    [lit "hello"; lit "hi"; lit "hey"] ->
  exists resp w',
    chat req w = (Ok resp, w') /\ resp_reply resp = HELP.
Proof.
  intros Hdb Hk H Hg.
  assert (Hr : reply_of (req_message req) = Ok HELP).
  { rewrite reply_of_first_match. unfold first_match, rules. cbn [List.find].
    replace (applies greeting_rule _) with false.
    2:{ cbn [applies greeting_rule existsb]. rewrite !Forall_cons in Hg.
        destruct Hg as (-> & -> & -> & _). reflexivity. }
    replace (applies help_rule _) with true; [reflexivity|].
    cbn [applies help_rule]. symmetry. apply orb_true_iff.
    pose proof (help_keyword_in_text k _ Hk H) as Hin.
    destruct Hk as [<-|[<-|[]]]; [left|right]; exact Hin. }
  eexists _, _. split; [exact (chat_run w st req HELP Hdb Hr) | reflexivity].
Qed.

Lemma ascii_tolower_colon (c : char) : ascii_tolower c <> COLON -> c <> COLON.
Proof. intros H ->. apply H. reflexivity. Qed.

Lemma ascii_tolower_is_colon (c : char) : ascii_tolower c = COLON -> c = COLON.
Proof.
  unfold ascii_tolower, COLON.
  destruct ((0x41 <=? c) && (c <=? 0x5A)) eqn:E; [|tauto].
  apply andb_prop in E as [E _]. apply N.leb_le in E. lia.
Qed.

Lemma after_colon_app (a b : str) :
  Forall (fun c => c <> COLON) a -> after_colon (a ++ b) = after_colon b.
Proof.
  induction 1 as [|c a Hc _ IH]; [reflexivity|].
  cbn [app after_colon]. apply N.eqb_neq in Hc. rewrite Hc. exact IH.
Qed.

(** The text after a keyword that ends in a colon, whatever the case the
    keyword is written in. *)
Lemma after_colon_nocase (k P t : str) :
  List.map ascii_tolower P = k ++ [COLON] ->
  Forall (fun c => c <> COLON) k ->
  after_colon (P ++ t) = Some t.
Proof.
  revert P. induction k as [|x k IH]; intros P HP Hk.
  - destruct P as [|c [|c' P]]; try discriminate HP.
    injection HP as HP. apply ascii_tolower_is_colon in HP. subst c.
    reflexivity.
  - destruct P as [|c P]; [discriminate HP|]. injection HP as Hc HP.
    inversion Hk as [|? ? Hx Hk']; subst.
    cbn [app after_colon].
    replace (c =? COLON) with false.
    + apply IH; assumption.
    + symmetry. apply N.eqb_neq, ascii_tolower_colon, Hx.
Qed.

Lemma isspace_not_colon (c : char) : isspace c = true -> c <> COLON.
Proof. intros H ->. discriminate H. Qed.

Lemma reply_of_summarize_any_case (ws P t p : str) :
  Forall (fun c => isspace c = true) ws ->
  In p [lit "summarize:"; lit "summarise:"] ->
  List.map ascii_tolower P = p ->
  Forall (fun k => str_in k (lower (strip (ws ++ P ++ t))) = false)
    [lit "hello"; lit "hi"; lit "hey"; lit "help"; lit "what can you do"] ->
  reply_of (ws ++ P ++ t) = Ok (SUMMARY_PREFIX ++ truncate (strip t)).
Proof.
  intros Hws Hp HP Hk. rewrite reply_of_first_match. unfold first_match, rules.
  assert (Hg : applies greeting_rule (lower (strip (ws ++ P ++ t))) = false).
  { cbn [applies greeting_rule existsb].
    rewrite !Forall_cons in Hk. destruct Hk as (-> & -> & -> & _). reflexivity. }
  assert (Hh : applies help_rule (lower (strip (ws ++ P ++ t))) = false).
  { cbn [applies help_rule].
    rewrite !Forall_cons in Hk. destruct Hk as (_ & _ & _ & -> & -> & _). reflexivity. }
  assert (Hfacts : p <> [] /\ Forall (fun c => c < 0x80 /\ isspace c = false) p).
  { destruct Hp as [<-|[<-|[]]]; (split; [discriminate|]);
      vm_compute; repeat constructor. }
  destruct Hfacts as (Hne & Hall).
  assert (HPall : Forall (fun c => c < 0x80 /\ isspace c = false) P).
  { rewrite <- HP in Hall. apply Forall_map in Hall.
    eapply Forall_impl; [exact Hall|]. intros c [H1 H2]. split.
    - apply ascii_tolower_ascii, H1.
    - apply ascii_tolower_isspace, H2. }
  assert (HPne : P <> []) by (intros ->; apply Hne; symmetry; exact HP).
  assert (Hs : applies summarize_rule (lower (strip (ws ++ P ++ t))) = true).
  { cbn [applies summarize_rule]. apply orb_true_iff.
    assert (H : startswith (lower (strip (ws ++ P ++ t))) p = true).
    { unfold strip. rewrite (strip_by_keep isspace ws P t HPne).
      2:{ eapply Forall_impl; [exact HPall|]. intros c [_ Hc]. exact Hc. }
      rewrite (lstrip_by_all _ _ Hws).
      rewrite lower_keep.
      2:{ eapply Forall_impl; [exact HPall|]. intros c [Hc _]. exact Hc. }
      rewrite HP. apply (startswith_app p). }
    destruct Hp as [<-|[<-|[]]]; [left|right]; exact H. }
  cbn [List.find]. rewrite Hg, Hh, Hs. cbn [answer summarize_rule].
  unfold summary. rewrite after_colon_app.
  2:{ eapply Forall_impl; [exact Hws|]. intros c. apply isspace_not_colon. }
  rewrite (after_colon_nocase (removelast p) P t); [reflexivity| |].
  - rewrite HP. destruct Hp as [<-|[<-|[]]]; reflexivity.
  - destruct Hp as [<-|[<-|[]]]; vm_compute; repeat constructor; discriminate.
Qed.

(** X8. The keyword of the summarize rule is matched in any case and after
    leading white space, while the summary is cut from the message as it
    was sent: such a message, when its stripped, lower-cased form holds
    none of the greeting and help keywords, is answered with the summary
    template and the text after the keyword, stripped and cut to 200
    characters. *)
Theorem summarize_any_case (w : World) (st : Store) (sid : option str)
    (ws P t p : str) :
  db w = Some st ->
  Forall (fun c => isspace c = true) ws ->
  In p [lit "summarize:"; lit "summarise:"] ->
  List.map ascii_tolower P = p ->
  Forall (fun k => str_in k (lower (strip (ws ++ P ++ t))) = false)
    [lit "hello"; lit "hi"; lit "hey"; lit "help"; lit "what can you do"] ->
  exists resp w',
    chat {| req_session_id := sid; req_message := ws ++ P ++ t |} w = (Ok resp, w') /\
    resp_reply resp = SUMMARY_PREFIX ++ truncate (strip t).
Proof.
  intros Hdb Hws Hp HP Hk.
  pose proof (reply_of_summarize_any_case ws P t p Hws Hp HP Hk) as Hr.
  eexists _, _. split.
  - apply (chat_run w st {| req_session_id := sid; req_message := ws ++ P ++ t |} _ Hdb Hr).
  - reflexivity.
Qed.


(** ** Lines and bullets *)

Lemma split_cons (sep : char) (s : str) : exists h r, split sep s = h :: r.
Proof.
  induction s as [|c s IH]; [eexists _, _; reflexivity|].
  cbn [split]. destruct (c =? sep); [eexists _, _; reflexivity|].
  destruct IH as (h & r & ->). eexists _, _. reflexivity.
Qed.

Lemma split_no_sep (sep : char) (s : str) :
  Forall (Forall (fun c => c <> sep)) (split sep s).
Proof.
  induction s as [|c s IH]; [repeat constructor|].
  cbn [split]. destruct (N.eqb_spec c sep) as [->|Hc].
  - constructor; [constructor | exact IH].
  - destruct (split sep s) as [|h r]; [repeat constructor; exact Hc|].
    inversion IH as [|? ? Hh Hr]; subst.
    constructor; [constructor; assumption | exact Hr].
Qed.

(** Joining the lines of a text gives the text back. *)
Lemma join_split (sep : char) (s : str) : join [sep] (split sep s) = s.
Proof.
  induction s as [|c s IH]; [reflexivity|].
  cbn [split]. destruct (split_cons sep s) as (h & r & E). rewrite E in *.
  destruct (N.eqb_spec c sep) as [->|Hc].
  - rewrite <- IH. reflexivity.
  - rewrite <- IH. destruct r as [|x r]; reflexivity.
Qed.

Lemma split_app_sep (sep : char) (x rest : str) :
  Forall (fun c => c <> sep) x ->
  split sep (x ++ sep :: rest) = x :: split sep rest.
Proof.
  induction 1 as [|c x Hc _ IH].
  - cbn [app split]. rewrite N.eqb_refl. reflexivity.
  - cbn [app split]. apply N.eqb_neq in Hc. rewrite Hc, IH. reflexivity.
Qed.

Lemma split_none (sep : char) (x : str) :
  Forall (fun c => c <> sep) x -> split sep x = [x].
Proof.
  induction 1 as [|c x Hc _ IH]; [reflexivity|].
  cbn [split]. apply N.eqb_neq in Hc. rewrite Hc, IH. reflexivity.
Qed.

Lemma split_app_line (sep : char) (a b : str) :
  Forall (fun c => c <> sep) a ->
  exists h r, split sep b = h :: r /\ split sep (a ++ b) = (a ++ h) :: r.
Proof.
  intros Ha. destruct (split_cons sep b) as (h & r & E). exists h, r.
  split; [exact E|].
  induction Ha as [|c a Hc _ IH]; [exact E|].
  cbn [app split]. apply N.eqb_neq in Hc. rewrite Hc, IH. reflexivity.
Qed.

(** Cutting a joined list of lines gives the lines back. *)
Lemma split_join (sep : char) (l : list str) :
  l <> [] ->
  Forall (Forall (fun c => c <> sep)) l ->
  split sep (join [sep] l) = l.
Proof.
  intros Hne Hl. induction Hl as [|x l Hx Hl IH]; [congruence|].
  destruct l as [|y l].
  - cbn [join]. apply split_none, Hx.
  - change (join [sep] (x :: y :: l)) with (x ++ sep :: join [sep] (y :: l)).
    rewrite (split_app_sep sep x _ Hx), IH by discriminate.
    reflexivity.
Qed.

Lemma lstrip_by_head (p : char -> bool) (s : str) (d : char) :
  lstrip_by p s = [] \/ p (List.hd d (lstrip_by p s)) = false.
Proof.
  induction s as [|c s IH]; [left; reflexivity|].
  cbn [lstrip_by]. destruct (p c) eqn:E; [exact IH|]. right. exact E.
Qed.

Lemma lstrip_by_nil (p : char -> bool) (s : str) :
  lstrip_by p s = [] -> Forall (fun c => p c = true) s.
Proof.
  induction s as [|c s IH]; [constructor|].
  cbn [lstrip_by]. destruct (p c) eqn:E; [|discriminate].
  intros H. constructor; [exact E | apply IH, H].
Qed.

Lemma strip_by_preserves (P : char -> Prop) (p : char -> bool) (s : str) :
  Forall P s -> Forall P (strip_by p s).
Proof.
  assert (L : forall x, Forall P x -> Forall P (lstrip_by p x)).
  { induction 1 as [|c x Hc Hx IH]; simpl; [constructor|].
    destruct (p c); [exact IH | constructor; assumption]. }
  intros H. unfold strip_by, rstrip_by.
  apply List.Forall_rev, L, List.Forall_rev, L, H.
Qed.

Lemma rstrip_by_cons (p : char -> bool) (c : char) (y : str) :
  p c = false -> rstrip_by p (c :: y) = c :: rstrip_by p y.
Proof. exact (rstrip_by_keep p [] y c). Qed.

Lemma rstrip_by_last (p : char -> bool) (s : str) (d : char) :
  rstrip_by p s = [] \/ p (List.last (rstrip_by p s) d) = false.
Proof.
  unfold rstrip_by. destruct (lstrip_by_head p (rev s) d) as [E|E].
  - left. rewrite E. reflexivity.
  - destruct (lstrip_by p (rev s)) as [|z l]; [left; reflexivity|].
    right. cbn [rev]. rewrite List.last_last. exact E.
Qed.

(** What stripping leaves is empty, or starts and ends with characters
    that are not stripped. *)
Lemma strip_by_ends (p : char -> bool) (s : str) (d : char) :
  strip_by p s = [] \/
  (p (List.hd d (strip_by p s)) = false /\ p (List.last (strip_by p s) d) = false).
Proof.
  unfold strip_by. destruct (lstrip_by_head p s d) as [E|E].
  - left. rewrite E. reflexivity.
  - destruct (lstrip_by p s) as [|c y]; [left; reflexivity|].
    cbn [List.hd] in E. right. split.
    + rewrite (rstrip_by_cons p c y E). exact E.
    + destruct (rstrip_by_last p (c :: y) d) as [F|F]; [|exact F].
      rewrite (rstrip_by_cons p c y E) in F. discriminate F.
Qed.

(** Stripping twice is stripping once. *)
Lemma strip_by_idempotent (p : char -> bool) (s : str) :
  strip_by p (strip_by p s) = strip_by p s.
Proof.
  destruct (strip_by_ends p s 0) as [E|[Hhd Hlast]].
  - rewrite E. reflexivity.
  - destruct (strip_by p s) as [|c x] eqn:E; [reflexivity|].
    assert (Hne : c :: x <> []) by discriminate.
    pose proof (strip_by_keep_ends p [] (c :: x) [] 0 Hne Hhd Hlast) as H.
    rewrite app_nil_r in H. etransitivity; [exact H|].
    unfold rstrip_by. cbn [rev lstrip_by app]. rewrite app_nil_r. reflexivity.
Qed.

Lemma strip_by_nil (p : char -> bool) (s : str) :
  strip_by p s = [] -> Forall (fun c => p c = true) s.
Proof.
  unfold strip_by. intros H.
  destruct (lstrip_by_head p s 0) as [E|E]; [apply lstrip_by_nil, E|].
  destruct (lstrip_by p s) as [|c y] eqn:Q; [apply lstrip_by_nil; exact Q|].
  cbn [List.hd] in E. rewrite (rstrip_by_cons p c y E) in H. discriminate H.
Qed.

Lemma join_all (P : char -> Prop) (sep : char) (l : list str) :
  P sep -> Forall (Forall P) l -> Forall P (join [sep] l).
Proof.
  intros Hsep. induction 1 as [|x l Hx Hl IH]; [constructor|].
  destruct l as [|y l]; [exact Hx|].
  cbn [join]. apply Forall_app. split; [exact Hx|].
  cbn [app]. constructor; [exact Hsep | exact IH].
Qed.

Lemma join_cons_head (sep x : str) (l : list str) :
  exists rest, join sep (x :: l) = x ++ rest.
Proof.
  destruct l as [|y l].
  - exists []. cbn [join]. rewrite app_nil_r. reflexivity.
  - eexists. reflexivity.
Qed.

Lemma filter_nil_all {A} (f : A -> bool) (l : list A) :
  List.filter f l = [] -> Forall (fun x => f x = false) l.
Proof.
  induction l as [|x l IH]; [constructor|].
  cbn [List.filter]. destruct (f x) eqn:E; [discriminate|].
  intros H. constructor; [exact E | apply IH, H].
Qed.

(** A message with some text in it has a line that the todo rule lists. *)
Lemma listed_lines_nonempty (message : str) :
  strip message <> [] -> listed_lines message <> [].
Proof.
  intros Hne Hnil. apply Hne. unfold strip.
  assert (Hall : Forall (fun c => isspace c = true) message).
  { rewrite <- (join_split NEWLINE message).
    apply (join_all (fun c => isspace c = true)); [reflexivity|].
    apply filter_nil_all in Hnil.
    eapply Forall_impl; [exact Hnil|]. intros line Hline. cbn beta in Hline.
    apply strip_by_nil. unfold strip in Hline.
    destruct (strip_by isspace line); [reflexivity | discriminate Hline]. }
  unfold strip_by. rewrite (lstrip_by_all _ _ Hall). reflexivity.
Qed.

Lemma listed_lines_no_newline (message : str) :
  Forall (Forall (fun c => c <> NEWLINE)) (listed_lines message).
Proof.
  unfold listed_lines.
  pose proof (split_no_sep NEWLINE message) as H.
  induction H as [|x l Hx Hl IH]; [constructor|].
  cbn [List.filter]. destruct (truthy (strip x)); [constructor; assumption | exact IH].
Qed.

Lemma reply_of_todo (message : str) :
  applies greeting_rule (lower (strip message)) = false ->
  applies help_rule (lower (strip message)) = false ->
  applies summarize_rule (lower (strip message)) = false ->
  applies todo_rule (lower (strip message)) = true ->
  reply_of message = Ok (bullet_list message).
Proof.
  intros Hg Hh Hs Ht. rewrite reply_of_first_match. unfold first_match, rules.
  cbn [List.find]. rewrite Hg, Hh, Hs, Ht. reflexivity.
Qed.

Lemma todo_rule_text (message : str) :
  applies todo_rule (lower (strip message)) = true -> strip message <> [].
Proof.
  intros H E. rewrite E in H. discriminate H.
Qed.

(** X7. When the todo rule is the first to apply, the reply is the header
    line followed by exactly one bullet line for each line of the message
    that is not blank, in their order; each bullet holds its line trimmed
    of spaces, dashes and bullet signs at both ends, so that trimming it
    again changes nothing. *)
Theorem todo_bullet_lines (message : str) :
  applies greeting_rule (lower (strip message)) = false ->
  applies help_rule (lower (strip message)) = false ->
  applies summarize_rule (lower (strip message)) = false ->
  applies todo_rule (lower (strip message)) = true ->
  exists reply,
    reply_of message = Ok reply /\
    split NEWLINE reply
    = lit "Added to your list:"
      :: List.map (fun line => [BULLET; 0x20] ++ strip_chars [0x20; 0x2D; BULLET] line)
           (listed_lines message) /\
    Forall (fun line =>
              strip_chars [0x20; 0x2D; BULLET] (strip_chars [0x20; 0x2D; BULLET] line)
              = strip_chars [0x20; 0x2D; BULLET] line)
      (listed_lines message).
Proof.
  intros Hg Hh Hs Ht. exists (bullet_list message).
  split; [apply reply_of_todo; assumption|]. split.
  - unfold bullet_list, TODO_PREFIX. fold (listed_lines message).
    rewrite <- app_assoc. cbn [app].
    rewrite split_app_sep by (vm_compute; repeat constructor; discriminate).
    f_equal. apply split_join.
    + pose proof (listed_lines_nonempty message (todo_rule_text message Ht)) as H.
      destruct (listed_lines message); [congruence | discriminate].
    + pose proof (listed_lines_no_newline message) as H.
      induction H as [|x l Hx Hl IH]; [constructor|].
      cbn [List.map]. constructor; [|exact IH].
      cbn [app]. constructor; [discriminate|]. constructor; [discriminate|].
      apply strip_by_preserves, Hx.
  - apply Forall_forall. intros line _. apply strip_by_idempotent.
Qed.

(** X6. The keyword of the todo rule is not taken off the list: a message
    that starts with "todo:" or "task:", and whose stripped, lower-cased
    form holds none of the greeting and help keywords, gets a reply whose
    first bullet starts with that keyword. *)
Theorem todo_keyword_listed (w : World) (st : Store) (sid : option str) (p t : str) :
  db w = Some st ->
  In p [lit "todo:"; lit "task:"] ->
  Forall (fun k => str_in k (lower (strip (p ++ t))) = false)
    [lit "hello"; lit "hi"; lit "hey"; lit "help"; lit "what can you do"] ->
  exists resp w' rest,
    chat {| req_session_id := sid; req_message := p ++ t |} w = (Ok resp, w') /\
    resp_reply resp = TODO_PREFIX ++ [BULLET; 0x20] ++ p ++ rest.
Proof.
  intros Hdb Hp Hk.
  assert (Hfacts : p <> []
            /\ Forall (fun c => c < 0x80 /\ isspace c = false) p
            /\ List.map ascii_tolower p = p
            /\ Forall (fun c => c <> NEWLINE) p
            /\ Forall (fun c => existsb (N.eqb c) [0x20; 0x2D; BULLET] = false) p
            /\ startswith p (lit "summarize:") = false
            /\ startswith p (lit "summarise:") = false).
  { destruct Hp as [<-|[<-|[]]]; (split; [discriminate|]);
      (split; [vm_compute; repeat constructor|]); (split; [reflexivity|]);
      (split; [vm_compute; repeat constructor; discriminate|]);
      (split; [vm_compute; repeat constructor|]); split; reflexivity. }
  destruct Hfacts as (Hne & Hall & Hlow & Hnl & Hkeep & Hs1 & Hs2).
  assert (Htext : exists x, lower (strip (p ++ t)) = p ++ x).
  { unfold strip. change (p ++ t) with ([] ++ p ++ t).
    rewrite (strip_by_keep isspace [] p t Hne).
    2:{ eapply Forall_impl; [exact Hall|]. intros c [_ Hc]. exact Hc. }
    rewrite lower_keep.
    2:{ eapply Forall_impl; [exact Hall|]. intros c [Hc _]. exact Hc. }
    rewrite Hlow. eexists. reflexivity. }
  destruct Htext as [x Hx].
  assert (Hr : reply_of (p ++ t) = Ok (bullet_list (p ++ t))).
  { apply reply_of_todo.
    - cbn [applies greeting_rule existsb].
      rewrite !Forall_cons in Hk. destruct Hk as (-> & -> & -> & _). reflexivity.
    - cbn [applies help_rule].
      rewrite !Forall_cons in Hk. destruct Hk as (_ & _ & _ & -> & -> & _). reflexivity.
    - cbn [applies summarize_rule]. rewrite Hx.
      destruct Hp as [<-|[<-|[]]]; reflexivity.
    - cbn [applies todo_rule]. rewrite Hx. apply orb_true_iff.
      destruct Hp as [<-|[<-|[]]]; [left|right]; apply (startswith_app _ x). }
  destruct (split_app_line NEWLINE p t Hnl) as (h & r & _ & Hsplit).
  assert (Hline : truthy (strip (p ++ h)) = true).
  { unfold strip. change (p ++ h) with ([] ++ p ++ h).
    rewrite (strip_by_keep isspace [] p h Hne).
    2:{ eapply Forall_impl; [exact Hall|]. intros c [_ Hc]. exact Hc. }
    destruct p; [congruence | reflexivity]. }
  assert (Hitem : strip_chars [0x20; 0x2D; BULLET] (p ++ h)
                  = p ++ rstrip_by (fun c => existsb (N.eqb c) [0x20; 0x2D; BULLET]) h).
  { unfold strip_chars. change (p ++ h) with ([] ++ p ++ h).
    rewrite (strip_by_keep _ [] p h Hne Hkeep). reflexivity. }
  assert (Hb : exists rest,
            bullet_list (p ++ t) = TODO_PREFIX ++ [BULLET; 0x20] ++ p ++ rest).
  { unfold bullet_list. rewrite Hsplit.
    cbn [List.filter]. rewrite Hline. cbn [List.map]. rewrite Hitem.
    destruct (join_cons_head [NEWLINE]
                ([BULLET; 0x20] ++ p
                 ++ rstrip_by (fun c => existsb (N.eqb c) [0x20; 0x2D; BULLET]) h)
                (List.map
                   (fun line => [BULLET; 0x20] ++ strip_chars [0x20; 0x2D; BULLET] line)
                   (List.filter (fun line => truthy (strip line)) r)))
      as [rest ->].
    eexists. rewrite <- !app_assoc. reflexivity. }
  destruct Hb as [rest Hb]. rewrite Hb in Hr.
  eexists _, _, rest. split.
  - apply (chat_run w st {| req_session_id := sid; req_message := p ++ t |} _ Hdb Hr).
  - reflexivity.
Qed.

(** ** The history *)

Lemma omap_length {A B} (f : A -> option B) (l : list A) :
  (length (omap f l) <= length l)%nat.
Proof.
  induction l as [|x l IH]; [reflexivity|].
  cbn [omap list_omap length]. destruct (f x); cbn [length]; lia.
Qed.

Lemma to_messages_length (sid : str) (docs : list doc) :
  (length (to_messages sid docs []) <= length docs)%nat.
Proof. rewrite to_messages_acc. apply omap_length. Qed.

Lemma find_documents_length (st : Store) (collection : str) (filter : doc) (limit : Z) :
  (length (find_documents st collection filter limit) <= Z.to_nat limit)%nat.
Proof. unfold find_documents. rewrite length_take. lia. Qed.

(** X9. GET /api/messages is a read: whenever it answers, the world is as
    it was, the response names the queried session, and it holds no more
    messages than the limit (50 when none is given), hence never more than
    200. *)
Theorem history_bounded (w w' : World) (sid : str) (limit : option Z)
    (resp : MessagesResponse) :
  get_api_messages (Some sid) limit w = (Ok resp, w') ->
  w' = w /\
  list_session_id resp = sid /\
  (Z.of_nat (length (list_messages resp)) <= default 50 limit <= 200)%Z.
Proof.
  unfold get_api_messages. cbv zeta.
  destruct ((1 <=? default 50 limit) && (default 50 limit <=? 200))%Z eqn:E;
    [|discriminate].
  apply andb_prop in E as [E1 E2]. apply Z.leb_le in E1, E2.
  destruct (db w) as [st|] eqn:Hdb.
  - rewrite (get_messages_run w st sid _ Hdb). intros H. injection H as <- <-.
    split; [reflexivity|]. split; [reflexivity|]. cbn [list_messages].
    pose proof (to_messages_length sid
                  (find_documents st (lit "message")
                     {[ lit "session_id" := VStr sid ]} (default 50%Z limit))) as H1.
    pose proof (find_documents_length st (lit "message")
                  {[ lit "session_id" := VStr sid ]} (default 50%Z limit)) as H2.
    lia.
  - unfold get_messages, bind, get_db. rewrite Hdb. discriminate.
Qed.

Lemma matches_session_dump (m : Message) :
  matches {[ lit "session_id" := VStr (msg_session_id m) ]} (model_dump m) = true.
Proof.
  unfold matches. rewrite map_to_list_singleton. cbn [forallb fst snd].
  rewrite andb_true_r. apply bool_decide_eq_true.
  unfold model_dump. apply lookup_insert_eq.
Qed.

(** A stored Message reads back as itself. *)
Lemma message_of_doc_dump (sid : str) (m : Message) :
  message_of_doc sid (model_dump m) = Some m.
Proof.
  unfold message_of_doc, model_dump.
  rewrite lookup_insert_eq.
  rewrite lookup_insert_ne by discriminate. rewrite lookup_insert_eq.
  rewrite lookup_insert_ne by discriminate.
  rewrite lookup_insert_ne by discriminate. rewrite lookup_singleton_eq.
  destruct m as [s r c]. destruct r; reflexivity.
Qed.

Lemma session_records_after (st : Store) (sid message reply : str) :
  session_records (store_after st sid message reply) sid
  = session_records st sid
    ++ [ model_dump {| msg_session_id := sid; msg_role := user; msg_content := message |};
         model_dump {| msg_session_id := sid; msg_role := assistant; msg_content := reply |} ].
Proof.
  unfold session_records, store_after.
  rewrite List.filter_app, List.map_app. f_equal.
  cbn [List.filter fst snd].
  pose proof (matches_session_dump
                {| msg_session_id := sid; msg_role := user; msg_content := message |})
    as Hu.
  pose proof (matches_session_dump
                {| msg_session_id := sid; msg_role := assistant; msg_content := reply |})
    as Ha.
  cbn [msg_session_id] in Hu, Ha. rewrite Hu, Ha.
  rewrite bool_decide_eq_true_2 by reflexivity. reflexivity.
Qed.

(** X10. What a chat turn stores is read back, in whatever order the
    store returns it: after a chat turn, the loop of GET /api/messages run
    over the records of the response's session, handed back in any order,
    gives, up to that order, the messages the session had before together
    with the user's message as sent and the assistant's reply; so does
    GET /api/messages itself when its limit covers the session's records. *)
Theorem history_after_chat (w : World) (st : Store) (req : ChatRequest) (limit : Z) :
  db w = Some st ->
  (length (session_records st (session_of req w)) + 2 <= Z.to_nat limit)%nat ->
  exists resp w' st',
    chat req w = (Ok resp, w') /\
    resp_session_id resp = session_of req w /\
    db w' = Some st' /\
    (forall docs,
       Permutation docs (session_records st' (resp_session_id resp)) ->
       Permutation
         (to_messages (resp_session_id resp) docs [])
         (to_messages (resp_session_id resp)
            (session_records st (resp_session_id resp)) []
          ++ [ {| msg_session_id := resp_session_id resp; msg_role := user;
                  msg_content := req_message req |};
               {| msg_session_id := resp_session_id resp; msg_role := assistant;
                  msg_content := resp_reply resp |} ])) /\
    exists listed,
      get_messages (resp_session_id resp) limit w'
      = (Ok {| list_session_id := resp_session_id resp; list_messages := listed |}, w') /\
      Permutation listed
        (to_messages (resp_session_id resp)
           (session_records st (resp_session_id resp)) []
         ++ [ {| msg_session_id := resp_session_id resp; msg_role := user;
                 msg_content := req_message req |};
              {| msg_session_id := resp_session_id resp; msg_role := assistant;
                 msg_content := resp_reply resp |} ]).
Proof.
  intros Hdb Hlimit. destruct (rule_engine_reply (req_message req)) as [r Hr].
  eexists _, _, _. split; [apply (chat_run w st req r Hdb Hr)|].
  split; [reflexivity|]. split; [reflexivity|].
  cbn [resp_session_id resp_reply].
  assert (Hall : forall docs,
            Permutation docs
              (session_records (store_after st (session_of req w) (req_message req) r)
                 (session_of req w)) ->
            Permutation (to_messages (session_of req w) docs [])
              (to_messages (session_of req w) (session_records st (session_of req w)) []
               ++ [ {| msg_session_id := session_of req w; msg_role := user;
                       msg_content := req_message req |};
                    {| msg_session_id := session_of req w; msg_role := assistant;
                       msg_content := r |} ])).
  { intros docs Hdocs. rewrite !to_messages_acc. cbn [app].
    rewrite (omap_Permutation _ _ _ Hdocs), session_records_after, omap_app.
    cbn [omap list_omap]. rewrite !message_of_doc_dump. reflexivity. }
  split; [exact Hall|].
  eexists. split.
  - erewrite get_messages_run by reflexivity. reflexivity.
  - apply Hall.
    change (find_documents ?s (lit "message") {[ lit "session_id" := VStr ?i ]} limit)
      with (take (Z.to_nat limit) (session_records s i)).
    rewrite take_ge; [reflexivity|].
    rewrite session_records_after, length_app. cbn [length]. lia.
Qed.

(** ** The diagnostics *)

(** X12. The two configuration fields of GET /test report the environment
    and nothing else: database_url and database_name say "Set" exactly
    when DATABASE_URL, resp. DATABASE_NAME, is set to a non-empty value,
    whatever the store handle is and answers; the name of the database
    never reaches the response. *)
Theorem diagnostics_report_environment (h : Handle) (getenv : str -> option str)
    (w : World) :
  database_url (test_database h getenv w)
  = Some (if env_set getenv (lit "DATABASE_URL")
          then CHECK_MARK ++ lit " Set" else CROSS_MARK ++ lit " Not Set") /\
  database_name (test_database h getenv w)
  = Some (if env_set getenv (lit "DATABASE_NAME")
          then CHECK_MARK ++ lit " Set" else CROSS_MARK ++ lit " Not Set").
Proof.
  unfold test_database.
  destruct (db w), (handle_name h), (list_collection_names h); split; reflexivity.
Qed.

(** X13. GET /test lists the first ten collections the handle names, and
    all of them when there are fewer, whenever there is a store, reading
    the handle's name does not fail and the listing succeeds; it lists
    none without a store, when reading the name fails, or when the listing
    fails; so it never lists more than ten. *)
Theorem diagnostics_collections (h : Handle) (getenv : str -> option str) (w : World) :
  (forall st names,
     db w = Some st ->
     (forall e, handle_name h <> AttrRaises e) ->
     list_collection_names h = Listed names ->
     collections (test_database h getenv w) = firstn 10 names) /\
  (db w = None -> collections (test_database h getenv w) = []) /\
  (forall e, handle_name h = AttrRaises e ->
     collections (test_database h getenv w) = []) /\
  (forall e, list_collection_names h = ListingRaises e ->
     collections (test_database h getenv w) = []) /\
  (length (collections (test_database h getenv w)) <= 10)%nat.
Proof.
  unfold test_database.
  destruct (db w) as [st|], (handle_name h) as [|v|e],
    (list_collection_names h) as [names|e'];
    cbn [collections set_database set_database_url set_database_name
           set_connection_status set_collections];
    (split; [intros st0 names0 Hst Hname Hlist;
             first [discriminate Hst | discriminate Hlist
                   | exfalso; apply (Hname e); reflexivity
                   | injection Hlist as <-; reflexivity]|]);
    (split; [intros Hst; first [discriminate Hst | reflexivity]|]);
    (split; [intros e0 Hname; first [discriminate Hname | reflexivity]|]);
    (split; [intros e0 Hlist; first [discriminate Hlist | reflexivity]|]);
    first [rewrite length_firstn; lia | cbn [length]; lia].
Qed.

(** X14. The status line of GET /test is short and never the initial
    one: the database field has at most 75 characters however long an
    error message is (50 of its characters are kept), it is never "Not
    Available", without a store it is "Available but not initialized",
    and connection_status is "Connected" exactly when there is a store and
    reading the handle's name does not fail. *)
Theorem diagnostics_status (h : Handle) (getenv : str -> option str) (w : World) :
  (length (database (test_database h getenv w)) <= 75)%nat /\
  database (test_database h getenv w) <> CROSS_MARK ++ lit " Not Available" /\
  (db w = None ->
   database (test_database h getenv w)
   = WARNING_SIGN ++ lit "  Available but not initialized") /\
  (connection_status (test_database h getenv w) = lit "Connected" <->
   (exists st, db w = Some st) /\ forall e, handle_name h <> AttrRaises e).
Proof.
  unfold test_database.
  destruct (db w) as [st|], (handle_name h) as [|v|e],
    (list_collection_names h) as [names|e'];
    cbn [database connection_status set_database set_database_url set_database_name
           set_connection_status set_collections];
    (split; [try (vm_compute; lia);
             rewrite !length_app, length_firstn; cbn [length CHECK_MARK CROSS_MARK
               WARNING_SIGN]; change (length (lit "  Connected but Error: ")) with 23%nat;
             change (length (lit " Error: ")) with 8%nat; lia|]);
    (split; [discriminate|]);
    (split; [intros Hn; first [discriminate Hn | reflexivity]|]);
    (split;
     [ intros Hc; first [discriminate Hc
                        | split; [exists st; reflexivity | intros e0; discriminate]]
     | intros [[st0 Hst] Hne]; first [reflexivity | discriminate Hst
                                      | exfalso; apply (Hne e); reflexivity] ]).
Qed.


(** ** The greeting on ASCII messages *)

Lemma lstrip_by_suffix (p : char -> bool) (s : str) :
  exists a, s = a ++ lstrip_by p s.
Proof.
  induction s as [|c s IH]; [exists []; reflexivity|].
  cbn [lstrip_by]. destruct (p c).
  - destruct IH as [a IH]. exists (c :: a). cbn [app]. rewrite <- IH. reflexivity.
  - exists []. reflexivity.
Qed.

Lemma rstrip_by_prefix (p : char -> bool) (s : str) :
  exists b, s = rstrip_by p s ++ b.
Proof.
  unfold rstrip_by. destruct (lstrip_by_suffix p (rev s)) as [a E].
  exists (rev a). rewrite <- rev_app_distr, <- E, rev_involutive. reflexivity.
Qed.

(** What stripping leaves is a run of the string. *)
Lemma strip_by_run (p : char -> bool) (s : str) :
  exists a b, s = a ++ strip_by p s ++ b.
Proof.
  unfold strip_by. destruct (lstrip_by_suffix p s) as [a Ea].
  destruct (rstrip_by_prefix p (lstrip_by p s)) as [b Eb].
  exists a, b. rewrite <- Eb. exact Ea.
Qed.

Lemma str_in_run (k a s b : str) :
  str_in k s = true -> str_in k (a ++ s ++ b) = true.
Proof.
  intros H. apply str_in_inv in H as (pre & post & ->).
  replace (a ++ (pre ++ k ++ post) ++ b) with ((a ++ pre) ++ k ++ (post ++ b))
    by (rewrite <- !app_assoc; reflexivity).
  apply str_in_app.
Qed.

(** On an ASCII message, a word found in the stripped, lower-cased text
    stands in the message, in some case. *)
Lemma text_word_in_message (k message : str) :
  Forall (fun c => c < 0x80) message ->
  List.map ascii_tolower k = k ->
  str_in k (lower (strip message)) = true ->
  str_in_nocase k message = true.
Proof.
  intros Hascii Hlow H. unfold str_in_nocase. rewrite Hlow.
  unfold lower in H. rewrite lower_from_ascii in H
    by (apply strip_by_preserves, Hascii).
  unfold strip in H. destruct (strip_by_run isspace message) as (a & b & E).
  rewrite E at 1. rewrite !List.map_app. apply str_in_run, H.
Qed.

Lemma Ok_inj {A} (a b : A) : Ok a = Ok b -> a = b.
Proof. intros H. injection H as H. exact H. Qed.

Lemma other_replies_not_greeting (message : str) :
  HELP <> GREETING /\ summary message <> GREETING
  /\ bullet_list message <> GREETING /\ FALLBACK <> GREETING.
Proof.
  repeat split; intros H; vm_compute in H; discriminate H.
Qed.

(** X15. On a message of ASCII characters the greeting is given exactly
    when the message contains hello, hi or hey in some case. *)
Theorem greeting_exactly (message : str) :
  Forall (fun c => c < 0x80) message ->
  (reply_of message = Ok GREETING <->
   existsb (fun k => str_in_nocase k message) [lit "hello"; lit "hi"; lit "hey"] = true).
Proof.
  intros Hascii. split.
  - intros H. rewrite reply_of_first_match in H. unfold first_match, rules in H.
    cbn [List.find] in H.
    destruct (other_replies_not_greeting message) as (N1 & N2 & N3 & N4).
    destruct (applies greeting_rule (lower (strip message))) eqn:Hg.
    + cbn [applies greeting_rule] in Hg. apply existsb_exists in Hg as (k & Hk & Hin).
      apply existsb_exists. exists k. split; [exact Hk|].
      apply text_word_in_message; [exact Hascii| |exact Hin].
      destruct Hk as [<-|[<-|[<-|[]]]]; reflexivity.
    + exfalso.
      destruct (applies help_rule _); [exact (N1 (Ok_inj _ _ H))|].
      destruct (applies summarize_rule _); [exact (N2 (Ok_inj _ _ H))|].
      destruct (applies todo_rule _); [exact (N3 (Ok_inj _ _ H)) | exact (N4 (Ok_inj _ _ H))].
  - intros H. apply existsb_exists in H as (k & Hk & Hin).
    exact (reply_of_greeting k message Hk Hin).
Qed.


End Vionix.

(** ** ASCII messages do not depend on the lower-casing table *)

Lemma lstrip_by_Forall (P : char -> Prop) (p : char -> bool) (s : str) :
  Forall P s -> Forall P (lstrip_by p s).
Proof.
  induction 1 as [|c s Hc Hs IH]; simpl; [constructor|].
  destruct (p c); [exact IH | constructor; assumption].
Qed.

Lemma strip_by_Forall (P : char -> Prop) (p : char -> bool) (s : str) :
  Forall P s -> Forall P (strip_by p s).
Proof.
  intros H. unfold strip_by, rstrip_by.
  apply List.Forall_rev, lstrip_by_Forall, List.Forall_rev, lstrip_by_Forall, H.
Qed.

Lemma lower_ascii (table : str -> nat -> char -> str) (s : str) :
  Forall (fun c => c < 0x80) s -> lower table s = List.map ascii_tolower s.
Proof. apply lower_from_ascii. Qed.

(** On a message of ASCII characters every table gives the same reply. *)
Lemma reply_of_ascii (table table' : str -> nat -> char -> str) (message : str) :
  Forall (fun c => c < 0x80) message ->
  reply_of table message = reply_of table' message.
Proof.
  intros H. unfold reply_of.
  rewrite (lower_ascii table), (lower_ascii table')
    by (apply strip_by_Forall, H).
  reflexivity.
Qed.

Lemma chat_ascii (table table' : str -> nat -> char -> str)
    (req : ChatRequest) (w : World) :
  Forall (fun c => c < 0x80) (req_message req) ->
  chat table req w = chat table' req w.
Proof.
  intros H. unfold chat. rewrite (reply_of_ascii table table' _ H). reflexivity.
Qed.

(** ** The properties at concrete requests *)

Lemma summarize_reply_witness :
  (exists resp w',
     chat uncased
       {| req_session_id := None;
          req_message := lit "summarize:" ++ lit " Rocq checks proofs. " |}
       sample_world = (Ok resp, w') /\
     ((200 < length (strip (lit " Rocq checks proofs. ")))%nat ->
        resp_reply resp
        = SUMMARY_PREFIX ++ firstn 200 (strip (lit " Rocq checks proofs. ")) ++ [ELLIPSIS]) /\
     ((length (strip (lit " Rocq checks proofs. ")) <= 200)%nat ->
        resp_reply resp = SUMMARY_PREFIX ++ strip (lit " Rocq checks proofs. "))) /\
  (exists resp w',
     chat uncased
       {| req_session_id := None; req_message := lit "summarise:" ++ text_of_201 |}
       sample_world = (Ok resp, w') /\
     ((200 < length (strip text_of_201))%nat ->
        resp_reply resp
        = SUMMARY_PREFIX ++ firstn 200 (strip text_of_201) ++ [ELLIPSIS]) /\
     ((length (strip text_of_201) <= 200)%nat ->
        resp_reply resp = SUMMARY_PREFIX ++ strip text_of_201)).
Proof.
  split.
  - apply (summarize_reply uncased sample_world [] None
             (lit "summarize:") (lit " Rocq checks proofs. ")).
    + reflexivity.
    + left. reflexivity.
    + repeat (apply List.Forall_cons; [vm_compute; reflexivity|]). apply List.Forall_nil.
  - apply (summarize_reply uncased sample_world [] None
             (lit "summarise:") text_of_201).
    + reflexivity.
    + right. left. reflexivity.
    + repeat (apply List.Forall_cons; [vm_compute; reflexivity|]). apply List.Forall_nil.
Defined.

(** C1 as the specification words it fails twice. "summarize:" followed by
    a text of 221 characters with the word "this" in it is answered with
    the greeting, which holds no part of the text; and "summarize:"
    followed by 200 letters and a space, 201 characters, is answered with
    the 200 letters and no ellipsis. *)
Lemma summarize_claim_fails :
  fst (chat uncased
         {| req_session_id := None; req_message := lit "summarize:" ++ text_with_this |}
         sample_world)
  = Ok {| resp_session_id := sample_uuid 0; resp_reply := GREETING |}
  /\ (200 <? length text_with_this)%nat = true
  /\ str_in (firstn 200 text_with_this ++ [ELLIPSIS]) GREETING = false
  /\ fst (chat uncased
            {| req_session_id := None; req_message := lit "summarize:" ++ text_with_space |}
            sample_world)
     = Ok {| resp_session_id := sample_uuid 0;
             resp_reply := SUMMARY_PREFIX ++ repeat 0x78 200 |}
  /\ (200 <? length text_with_space)%nat = true
  /\ str_in (firstn 200 text_with_space ++ [ELLIPSIS])
        (SUMMARY_PREFIX ++ repeat 0x78 200) = false
  /\ str_in [ELLIPSIS] (SUMMARY_PREFIX ++ repeat 0x78 200) = false.
Proof. vm_compute. repeat split. Qed.

Lemma todo_example_witness :
  exists resp w',
    chat uncased
      {| req_session_id := None;
         req_message := lit "todo:" ++ [NEWLINE] ++ lit "- a" ++ [NEWLINE] ++ lit "- b" |}
      sample_world = (Ok resp, w') /\
    resp_reply resp
    = lit "Added to your list:" ++ [NEWLINE]
      ++ [BULLET] ++ lit " todo:" ++ [NEWLINE]
      ++ [BULLET] ++ lit " a" ++ [NEWLINE]
      ++ [BULLET] ++ lit " b".
Proof. apply (todo_example uncased sample_world [] None). reflexivity. Defined.

Lemma greeting_reply_witness :
  exists resp w',
    chat uncased {| req_session_id := None; req_message := lit "Oh, HEY there" |}
      sample_world = (Ok resp, w') /\
    startswith (resp_reply resp) GREETING = true /\
    resp_reply resp = GREETING.
Proof.
  apply (greeting_reply uncased sample_world []
           {| req_session_id := None; req_message := lit "Oh, HEY there" |} (lit "hey")).
  - reflexivity.
  - right. right. left. reflexivity.
  - vm_compute. reflexivity.
Defined.

Lemma store_unavailable_witness :
  chat uncased {| req_session_id := None; req_message := lit "hi" |} no_store_world
  = (Raise (HTTPException 500 (lit "Database not available")), no_store_world) /\
  get_messages (sample_uuid 0) 50 no_store_world
  = (Raise (HTTPException 500 (lit "Database not available")), no_store_world) /\
  post_api_chat uncased None (Some (lit "hi")) no_store_world
  = (Raise (HTTPException 500 (lit "Database not available")), no_store_world) /\
  get_api_messages (Some (sample_uuid 0)) (Some 50%Z) no_store_world
  = (Raise (HTTPException 500 (lit "Database not available")), no_store_world).
Proof.
  pose proof (store_unavailable uncased no_store_world
                {| req_session_id := None; req_message := lit "hi" |}
                (sample_uuid 0) 50 eq_refl) as (H1 & H2 & H3 & H4 & _).
  split; [exact H1|]. split; [exact H2|]. split.
  - apply H3. discriminate.
  - apply H4. lia.
Defined.

Lemma limit_validated_witness :
  get_api_messages (Some (sample_uuid 0)) (Some 0%Z) no_store_world
  = (Raise RequestValidationError, no_store_world) /\
  get_api_messages (Some (sample_uuid 0)) (Some 201%Z) sample_world
  = (Raise RequestValidationError, sample_world).
Proof.
  split.
  - apply (proj1 (limit_validated no_store_world (sample_uuid 0)) 0%Z). lia.
  - apply (proj1 (limit_validated sample_world (sample_uuid 0)) 201%Z). lia.
Defined.



Lemma chat_persists_witness :
  exists resp w',
    chat uncased {| req_session_id := Some (lit "s1"); req_message := lit " What now? " |}
      sample_world = (Ok resp, w') /\
    db w' =
      Some ([] ++
            [ (lit "message",
               model_dump {| msg_session_id := resp_session_id resp;
                             msg_role := user;
                             msg_content := lit " What now? " |});
              (lit "message",
               model_dump {| msg_session_id := resp_session_id resp;
                             msg_role := assistant;
                             msg_content := resp_reply resp |}) ]).
Proof.
  apply (chat_persists uncased sample_world []
           {| req_session_id := Some (lit "s1"); req_message := lit " What now? " |}).
  reflexivity.
Defined.

Lemma empty_session_id_witness :
  chat uncased {| req_session_id := Some []; req_message := lit "task: x" |} sample_world
  = chat uncased {| req_session_id := None; req_message := lit "task: x" |} sample_world /\
  exists resp w',
    chat uncased {| req_session_id := Some []; req_message := lit "task: x" |} sample_world
    = (Ok resp, w') /\
    resp_session_id resp = uuid4 sample_world (uuid_calls sample_world) /\
    uuid_calls w' = S (uuid_calls sample_world).
Proof. apply (empty_session_id uncased sample_world [] (lit "task: x")). reflexivity. Defined.

Lemma missing_fields_defaulted_witness :
  In {| msg_session_id := lit "s1"; msg_role := user; msg_content := lit "" |}
     (to_messages (lit "s1") [bare_doc; odd_doc; assistant_doc] []) /\
  In {| msg_session_id := lit "s1"; msg_role := assistant; msg_content := lit "ok" |}
     (to_messages (lit "s1") [bare_doc; odd_doc; assistant_doc] []) /\
  to_messages (lit "s1") [bare_doc; odd_doc; assistant_doc] []
  = omap (message_of_doc (lit "s1")) [bare_doc; odd_doc; assistant_doc].
Proof.
  pose proof (missing_fields_defaulted (lit "s1") [bare_doc; odd_doc; assistant_doc])
    as (Heq & Hin & _).
  split; [|split; [|exact Heq]].
  - apply (Hin bare_doc (lit "s1") user (lit "")).
    + left. reflexivity.
    + vm_compute. reflexivity.
    + vm_compute. reflexivity.
    + vm_compute. reflexivity.
  - apply (Hin assistant_doc (lit "s1") assistant (lit "ok")).
    + right. right. left. reflexivity.
    + vm_compute. reflexivity.
    + vm_compute. reflexivity.
    + vm_compute. reflexivity.
Defined.

(** ** The further properties at concrete requests *)

Lemma session_id_kept_witness :
  exists resp w',
    chat uncased {| req_session_id := Some (lit "s1"); req_message := lit "hi" |}
      sample_world = (Ok resp, w') /\
    resp_session_id resp = lit "s1" /\
    uuid_calls w' = uuid_calls sample_world.
Proof.
  apply (session_id_kept uncased sample_world [] (lit "s1") (lit "hi")).
  - reflexivity.
  - discriminate.
Defined.

Lemma reply_ignores_history_witness :
  exists resp1 w1' resp2 w2',
    chat uncased {| req_session_id := None; req_message := lit "help me" |}
      sample_world = (Ok resp1, w1') /\
    chat uncased {| req_session_id := Some (lit "s1"); req_message := lit "help me" |}
      stored_world = (Ok resp2, w2') /\
    resp_reply resp1 = resp_reply resp2.
Proof.
  apply (reply_ignores_history uncased sample_world stored_world [] sample_store
           None (Some (lit "s1")) (lit "help me")); reflexivity.
Defined.

Lemma summary_bounded_witness :
  exists body,
    reply_of uncased (lit "summarize:" ++ text_of_201) = Ok (SUMMARY_PREFIX ++ body) /\
    (length body <= 201)%nat /\
    (length (SUMMARY_PREFIX ++ body) <= 227)%nat.
Proof.
  apply (summary_bounded uncased (lit "summarize:" ++ text_of_201));
    vm_compute; reflexivity.
Defined.

Lemma help_reply_witness :
  exists resp w',
    chat uncased {| req_session_id := None; req_message := lit "What CAN you Do?" |}
      sample_world = (Ok resp, w') /\
    resp_reply resp = HELP.
Proof.
  apply (help_reply uncased sample_world []
           {| req_session_id := None; req_message := lit "What CAN you Do?" |}
           (lit "what can you do")).
  - reflexivity.
  - right. left. reflexivity.
  - vm_compute. reflexivity.
  - repeat (apply List.Forall_cons; [vm_compute; reflexivity|]). apply List.Forall_nil.
Defined.

Lemma todo_keyword_listed_witness :
  exists resp w' rest,
    chat uncased {| req_session_id := None; req_message := lit "task:" ++ lit " buy milk" |}
      sample_world = (Ok resp, w') /\
    resp_reply resp = TODO_PREFIX ++ [BULLET; 0x20] ++ lit "task:" ++ rest.
Proof.
  apply (todo_keyword_listed uncased sample_world [] None (lit "task:") (lit " buy milk")).
  - reflexivity.
  - right. left. reflexivity.
  - repeat (apply List.Forall_cons; [vm_compute; reflexivity|]). apply List.Forall_nil.
Defined.

Lemma todo_bullet_lines_witness :
  exists reply,
    reply_of uncased (lit "todo:" ++ [NEWLINE] ++ lit "- a" ++ [NEWLINE] ++ lit " " ++ [NEWLINE] ++ lit "---")
    = Ok reply /\
    split NEWLINE reply
    = lit "Added to your list:"
      :: List.map (fun line => [BULLET; 0x20] ++ strip_chars [0x20; 0x2D; BULLET] line)
           (listed_lines (lit "todo:" ++ [NEWLINE] ++ lit "- a" ++ [NEWLINE] ++ lit " " ++ [NEWLINE] ++ lit "---")) /\
    Forall (fun line =>
              strip_chars [0x20; 0x2D; BULLET] (strip_chars [0x20; 0x2D; BULLET] line)
              = strip_chars [0x20; 0x2D; BULLET] line)
      (listed_lines (lit "todo:" ++ [NEWLINE] ++ lit "- a" ++ [NEWLINE] ++ lit " " ++ [NEWLINE] ++ lit "---")).
Proof.
  apply (todo_bullet_lines uncased
           (lit "todo:" ++ [NEWLINE] ++ lit "- a" ++ [NEWLINE] ++ lit " " ++ [NEWLINE] ++ lit "---"));
    vm_compute; reflexivity.
Defined.

Lemma summarize_any_case_witness :
  exists resp w',
    chat uncased
      {| req_session_id := None;
         req_message := lit "  " ++ lit "SumMarize:" ++ lit " Rocq checks proofs. " |}
      sample_world = (Ok resp, w') /\
    resp_reply resp = SUMMARY_PREFIX ++ truncate (strip (lit " Rocq checks proofs. ")).
Proof.
  apply (summarize_any_case uncased sample_world [] None
           (lit "  ") (lit "SumMarize:") (lit " Rocq checks proofs. ") (lit "summarize:")).
  - reflexivity.
  - vm_compute. repeat constructor.
  - left. reflexivity.
  - reflexivity.
  - repeat (apply List.Forall_cons; [vm_compute; reflexivity|]). apply List.Forall_nil.
Defined.

Lemma history_bounded_witness :
  stored_world = stored_world /\
  list_session_id
    {| list_session_id := lit "s1";
       list_messages :=
         [ {| msg_session_id := lit "s1"; msg_role := user; msg_content := lit "hi" |} ] |}
  = lit "s1" /\
  (Z.of_nat
     (length
        (list_messages
           {| list_session_id := lit "s1";
              list_messages :=
                [ {| msg_session_id := lit "s1"; msg_role := user;
                     msg_content := lit "hi" |} ] |}))
   <= default 50 (Some 1) <= 200)%Z.
Proof.
  apply (history_bounded stored_world stored_world (lit "s1") (Some 1%Z)).
  vm_compute. reflexivity.
Defined.

Lemma history_after_chat_witness :
  exists resp w' st',
    chat uncased {| req_session_id := Some (lit "s1"); req_message := lit "thanks" |}
      stored_world = (Ok resp, w') /\
    resp_session_id resp
    = session_of {| req_session_id := Some (lit "s1"); req_message := lit "thanks" |}
        stored_world /\
    db w' = Some st' /\
    (forall docs,
       Permutation docs (session_records st' (resp_session_id resp)) ->
       Permutation
         (to_messages (resp_session_id resp) docs [])
         (to_messages (resp_session_id resp)
            (session_records sample_store (resp_session_id resp)) []
          ++ [ {| msg_session_id := resp_session_id resp; msg_role := user;
                  msg_content := lit "thanks" |};
               {| msg_session_id := resp_session_id resp; msg_role := assistant;
                  msg_content := resp_reply resp |} ])) /\
    exists listed,
      get_messages (resp_session_id resp) 50 w'
      = (Ok {| list_session_id := resp_session_id resp; list_messages := listed |}, w') /\
      Permutation listed
        (to_messages (resp_session_id resp)
           (session_records sample_store (resp_session_id resp)) []
         ++ [ {| msg_session_id := resp_session_id resp; msg_role := user;
                 msg_content := lit "thanks" |};
              {| msg_session_id := resp_session_id resp; msg_role := assistant;
                 msg_content := resp_reply resp |} ]).
Proof.
  apply (history_after_chat uncased stored_world sample_store
           {| req_session_id := Some (lit "s1"); req_message := lit "thanks" |} 50).
  - reflexivity.
  - vm_compute. lia.
Defined.

Lemma diagnostics_collections_witness :
  collections (test_database busy_handle url_env stored_world)
  = firstn 10 (List.map (fun n => [0x63; 0x30 + N.of_nat n]) (seq 0 12)) /\
  collections (test_database busy_handle url_env no_store_world) = [] /\
  collections (test_database failing_handle url_env stored_world) = [].
Proof.
  split; [|split].
  - apply (proj1 (diagnostics_collections busy_handle url_env stored_world)
             sample_store).
    + reflexivity.
    + intros e. discriminate.
    + reflexivity.
  - apply (proj1 (proj2 (diagnostics_collections busy_handle url_env no_store_world))).
    reflexivity.
  - apply (proj1 (proj2 (proj2 (proj2
             (diagnostics_collections failing_handle url_env stored_world))))
             (repeat 0x21 80)).
    reflexivity.
Defined.

Lemma diagnostics_status_witness :
  database (test_database failing_handle empty_env no_store_world)
  = WARNING_SIGN ++ lit "  Available but not initialized" /\
  connection_status (test_database failing_handle url_env stored_world) = lit "Connected" /\
  (length (database (test_database failing_handle url_env stored_world)) <= 75)%nat.
Proof.
  split; [|split].
  - apply (diagnostics_status failing_handle empty_env no_store_world). reflexivity.
  - apply (diagnostics_status failing_handle url_env stored_world). split.
    + exists sample_store. reflexivity.
    + intros e. discriminate.
  - apply (diagnostics_status failing_handle url_env stored_world).
Defined.

Lemma greeting_exactly_witness :
  reply_of uncased (lit "Say Hey to them") = Ok GREETING <->
  existsb (fun k => str_in_nocase k (lit "Say Hey to them"))
    [lit "hello"; lit "hi"; lit "hey"] = true.
Proof.
  apply (greeting_exactly uncased (lit "Say Hey to them")).
  vm_compute. repeat constructor.
Defined.
